(** * xlsx_size_audit: the archive scanner and the advisor

    A shallow embedding of [scan_xlsx], [count_shared_strings] and
    [suggest_actions] of [py_xlsx_low_level_audit.py] (the standalone script
    held in [SCRIPT_SOURCE]), with the properties of the specification stated
    over it.

    Python values are modelled as follows: [int] is [Z]; [float] is the
    kernel's binary64 [float]; [str] is [string] (the UTF-8 bytes of the
    text); [bytes] is [list byte]; [None] is the [None] of an [option];
    a raised exception is the left injection of a sum. *)

From Stdlib Require Import ZArith List String Ascii Bool Lia.
From Stdlib Require Import Strings.Byte.
From Stdlib Require Import Permutation Sorted.
From Stdlib Require Import Floats.
From Stdlib Require Import Numbers.DecimalString.
Import ListNotations.

Local Open Scope string_scope.
Local Open Scope list_scope.
Local Open Scope Z_scope.

(** ** Data model *)

(** One element of [rows]: the dict built at lines 92-97. *)
Record Row := mkRow {
  path : string;
  uncompressed_bytes : Z;
  compressed_bytes : Z;
  compression_savings : float
}.

(** The [summary] dict built at lines 107-116. *)
Record Summary := mkSummary {
  total_uncompressed : Z;
  total_compressed : Z;
  overall_compression_savings : float;
  media_count : Z;
  media_uncompressed_total : Z;
  worksheets_uncompressed_total : Z;
  sharedStrings_uncompressed : option Z;
  sharedStrings_est_count : option Z
}.

(** ** The advisor: [suggest_actions] *)

Module Advisor.

Definition MiB : Z := 1024 * 1024.

Definition media_tip : string :=
  "Folder xl/media/ jest duży → rozważ kompresję obrazów (JPG/WebP), usunięcie duplikatów lub zmniejszenie rozdzielczości.".

Definition shared_strings_tip : string :=
  "Plik xl/sharedStrings.xml jest bardzo duży → rozważ usunięcie nadmiarowych tekstów, zamianę formuł tekstowych na wartości lub deduplikację powtarzalnych wartości.".

Definition worksheets_tip : string :=
  "Duże arkusze w xl/worksheets/ → sprawdź 'używany zakres' (Used Range). Usuń puste wiersze/kolumny na końcu i zapisz plik na nowo.".

(** The f-string of line 138. *)
Definition largest_tip (worst : string) : string :=
  ("Największy element: " ++ worst ++
   " → sprawdź, czy jest potrzebny i czy da się go zredukować.")%string.

Definition fallback_tip : string :=
  "Nie widać jednego, oczywistego winowajcy — rozważ oczyszczenie używanego zakresu, kompresję obrazów i usunięcie zbędnych stylów/formatowania.".

(** The three threshold tests, lines 123, 127-128 and 132. *)
Definition media_fires (s : Summary) : bool :=
  (media_count s >? 0) && (media_uncompressed_total s >? 10 * MiB).

(** [if ss and ss > ...]: [None] and [0] are both falsy. *)
Definition shared_strings_fires (s : Summary) : bool :=
  match sharedStrings_uncompressed s with
  | None => false
  | Some ss => negb (ss =? 0) && (ss >? 10 * MiB)
  end.

Definition worksheets_fires (s : Summary) : bool :=
  worksheets_uncompressed_total s >? 20 * MiB.

(** [tips.append(x)] under a condition. *)
Definition append_if (c : bool) (x : string) (tips : list string) : list string :=
  if c then tips ++ [x] else tips.

(** The suggestions of rules 1-3 alone: [tips] as it stands at line 135. *)
Definition threshold_tips (s : Summary) : list string :=
  append_if (worksheets_fires s) worksheets_tip
    (append_if (shared_strings_fires s) shared_strings_tip
       (append_if (media_fires s) media_tip [])).

(** [if top_paths: worst = top_paths[0]["path"]; tips.append(...)]. *)
Definition append_largest (top_paths : list Row) (tips : list string) : list string :=
  match top_paths with
  | [] => tips
  | r :: _ => tips ++ [largest_tip (path r)]
  end.

(** [if not tips: tips.append(fallback)]. *)
Definition append_fallback (tips : list string) : list string :=
  match tips with
  | [] => [fallback_tip]
  | _ :: _ => tips
  end.

Definition suggest_actions (s : Summary) (top_paths : list Row) : list string :=
  append_fallback (append_largest top_paths (threshold_tips s)).

End Advisor.

(** ** Exceptions and the error monad *)

Inductive exn :=
| FileNotFoundError (p : string)
| BadZipFile
| ZeroDivisionError
| OverflowError.

(** A computation that returns a value or raises. *)
Definition M (A : Type) : Type := exn + A.

Definition ret {A} (a : A) : M A := inr a.

Definition raise {A} (e : exn) : M A := inl e.

Definition bind {A B} (c : M A) (k : A -> M B) : M B :=
  match c with
  | inl e => inl e
  | inr a => k a
  end.

Notation "x <- c ;; k" := (bind c (fun x => k))
  (at level 61, c at next level, right associativity).

(** ** The shared-strings entry count: [count_shared_strings] *)

Module SharedStrings.

Definition bytes := list byte.

(** The marker [b"<si"]. *)
Definition marker : bytes := [x3c; x73; x69].

Fixpoint bytes_eqb (a b : bytes) : bool :=
  match a, b with
  | [], [] => true
  | x :: a', y :: b' => Byte.eqb x y && bytes_eqb a' b'
  | _, _ => false
  end.

(** [buf.startswith(sub)]. *)
Fixpoint starts_with (sub buf : bytes) : bool :=
  match sub, buf with
  | [], _ => true
  | _ :: _, [] => false
  | x :: sub', y :: buf' => Byte.eqb x y && starts_with sub' buf'
  end.

(** The left-to-right scan of [bytes.count]: [skip] is the number of bytes
    still covered by the occurrence found last, which cannot start another. *)
Fixpoint count_scan (sub : bytes) (skip : nat) (buf : bytes) : Z :=
  match buf with
  | [] => 0
  | _ :: tl =>
      match skip with
      | S k => count_scan sub k tl
      | O =>
          if starts_with sub buf
          then 1 + count_scan sub (Nat.pred (List.length sub)) tl
          else count_scan sub O tl
      end
  end.

(** [buf.count(sub)]: the number of non-overlapping occurrences; for the
    empty [sub] Python answers [len(buf) + 1]. *)
Definition bytes_count (sub buf : bytes) : Z :=
  match sub with
  | [] => Z.of_nat (List.length buf) + 1
  | _ :: _ => count_scan sub O buf
  end.

(** [buf[-n:]] for a positive [n]. *)
Definition last_bytes (n : nat) (buf : bytes) : bytes :=
  skipn (List.length buf - n) buf.

(** What one call of [f.read(65536)] does: it returns a chunk or raises. *)
Inductive read_result :=
| Chunk (data : bytes)
| ReadError.

(** What [zf.open(path)] does: [KeyError] when the archive has no such
    member, another exception (bad header, unsupported compression, ...), or
    a file object, given by the outcomes of its successive [read] calls;
    once they are used up [read] returns [b""]. *)
Inductive open_result :=
| OpenKeyError
| OpenError
| Opened (reads : list read_result).

(** The loop of lines 48-53 over [iter(lambda: f.read(65536), b"")], from the
    current [count] and [buf]; [None] when a read raises. *)
Fixpoint count_loop (reads : list read_result) (count : Z) (buf : bytes) : option Z :=
  match reads with
  | [] => Some count
  | ReadError :: _ => None
  | Chunk [] :: _ => Some count
  | Chunk chunk :: rest =>
      let buf := buf ++ chunk in
      let count := count + bytes_count marker buf in
      count_loop rest count (last_bytes 3 buf)
  end.

(** The rule of the specification, for comparison with [count_loop]: the
    same loop that retains "the last 2 bytes of each chunk when scanning the
    next". *)
Fixpoint spec_count_loop (reads : list read_result) (count : Z) (buf : bytes) : option Z :=
  match reads with
  | [] => Some count
  | ReadError :: _ => None
  | Chunk [] :: _ => Some count
  | Chunk chunk :: rest =>
      let buf := buf ++ chunk in
      let count := count + bytes_count marker buf in
      spec_count_loop rest count (last_bytes 2 buf)
  end.

(** [count_shared_strings] on what [zf.open] gave: both [except] clauses
    return [None]. *)
Definition count_shared_strings (o : open_result) : option Z :=
  match o with
  | OpenKeyError => None
  | OpenError => None
  | Opened reads => count_loop reads 0 []
  end.

(** The reads of a member that holds [data] and is read without failure,
    [n] bytes at a time. *)
Fixpoint read_chunks_fuel (fuel n : nat) (data : bytes) : list read_result :=
  match fuel with
  | O => []
  | S fuel' =>
      match data with
      | [] => []
      | _ :: _ => Chunk (firstn n data) :: read_chunks_fuel fuel' n (skipn n data)
      end
  end.

Definition read_chunks (n : nat) (data : bytes) : list read_result :=
  read_chunks_fuel (List.length data) n data.

(** The chunk size of line 48. *)
Definition chunk_size : nat := Z.to_nat 65536.

(** [data] delivered in two reads, the first of [k] bytes; a boundary at
    either end of [data] is no boundary, so an empty part is no read. *)
Definition split_reads (k : nat) (data : bytes) : list read_result :=
  map Chunk (filter (fun c => negb (bytes_eqb c [])) [firstn k data; skipn k data]).

(** The fixture [b"<si><si/><si"]. *)
Definition fixture : bytes :=
  [x3c; x73; x69; x3e; x3c; x73; x69; x2f; x3e; x3c; x73; x69].

(** A read that returned a non-empty chunk: after it the loop goes on. *)
Definition nonempty_chunk (r : read_result) : Prop :=
  match r with
  | Chunk (_ :: _) => True
  | _ => False
  end.

(** The shared-strings part cannot be read to its end: [zf.open] raises, or
    one of the reads the loop gets to raises. *)
Definition stream_fails (o : open_result) : Prop :=
  match o with
  | OpenKeyError => True
  | OpenError => True
  | Opened reads =>
      exists pre post, reads = pre ++ ReadError :: post /\ Forall nonempty_chunk pre
  end.

End SharedStrings.

(** ** Python's float operations used by the scanner *)

Module PyFloat.

(** An [int] as an unrounded binary number. *)
Definition Z2SF (z : Z) : spec_float :=
  match z with
  | Z0 => S754_zero false
  | Zpos p => S754_finite false p 0
  | Zneg p => S754_finite true p 0
  end.

(** [a / b] on two [int]s: the quotient rounded once, to nearest even;
    [ZeroDivisionError] for a zero divisor and [OverflowError] when the
    quotient is too large for a float. *)
Definition truediv (a b : Z) : M float :=
  if b =? 0 then raise ZeroDivisionError
  else
    match SFdiv prec emax (Z2SF a) (Z2SF b) with
    | S754_infinity _ => raise OverflowError
    | q => ret (SF2Prim q)
    end.

(** The integer nearest to [n / d] for [0 <= n] and [0 < d], ties to even. *)
Definition div_half_even (n d : Z) : Z :=
  let q := n / d in
  let r := n mod d in
  match (2 * r ?= d) with
  | Lt => q
  | Gt => q + 1
  | Eq => if Z.even q then q else q + 1
  end.

(** The number of hundredths nearest to [m * 2^e], ties to even. *)
Definition hundredths (m : positive) (e : Z) : Z :=
  if 0 <=? e then 100 * Zpos m * 2 ^ e
  else div_half_even (100 * Zpos m) (2 ^ (- e)).

(** [round(x, 2)] on a float: the exact value of [x] is rounded to the
    nearest multiple of 0.01, ties to even, and the float nearest to that
    decimal is returned; zeros, infinities and nans round to themselves. *)
Definition round2 (x : float) : float :=
  match Prim2SF x with
  | S754_finite s m e =>
      let k := hundredths m e in
      SF2Prim (SFdiv prec emax
                 (match k with Zpos p => S754_finite s p 0 | _ => S754_zero s end)
                 (Z2SF 100))
  | _ => x
  end.

End PyFloat.

(** ** The archive scanner: [scan_xlsx] *)

Module Scanner.

Import SharedStrings.

(** A [ZipInfo] of [zf.infolist()], with the three attributes the scan reads. *)
Record ZipInfo := mkZipInfo {
  filename : string;
  compress_size : Z;
  file_size : Z
}.

(** An opened [ZipFile]: its member index and what [zf.open] does. *)
Record ZipFile := mkZipFile {
  infolist : list ZipInfo;
  zf_open : string -> open_result
}.

(** What a path refers to. *)
Inductive entry :=
| Absent
| NotAnArchive
| Archive (zf : ZipFile).

Definition filesystem := string -> entry.

(** [os.path.exists(path)]. *)
Definition os_path_exists (fs : filesystem) (p : string) : bool :=
  match fs p with
  | Absent => false
  | _ => true
  end.

(** [zipfile.ZipFile(path)]. *)
Definition open_zip (fs : filesystem) (p : string) : M ZipFile :=
  match fs p with
  | Archive zf => ret zf
  | _ => raise BadZipFile
  end.

(** The local variables of the loop of lines 74-97. *)
Record ScanState := mkScanState {
  st_rows : list Row;
  st_total_uncompressed : Z;
  st_total_compressed : Z;
  st_media_total : Z;
  st_media_count : Z;
  st_worksheets_total : Z;
  st_sharedstrings_size : option Z
}.

(** Lines 65-71. *)
Definition init_state : ScanState :=
  mkScanState [] 0 0 0 0 0 None.

(** Line 91: [(1 - (comp / uncomp)) * 100 if uncomp > 0 else 0.0]. *)
Definition savings_ratio (comp uncomp : Z) : M float :=
  if uncomp >? 0 then
    q <- PyFloat.truediv comp uncomp ;;
    ret ((1 - q) * 100)%float
  else ret 0%float.

(** The body of the loop, lines 75-97. *)
Definition scan_step (st : ScanState) (info : ZipInfo) : M ScanState :=
  let name := filename info in
  let comp := compress_size info in
  let uncomp := file_size info in
  let total_uncompressed' := st_total_uncompressed st + uncomp in
  let total_compressed' := st_total_compressed st + comp in
  let is_media := String.prefix "xl/media/" name in
  let media_total' := if is_media then st_media_total st + uncomp else st_media_total st in
  let media_count' := if is_media then st_media_count st + 1 else st_media_count st in
  let worksheets_total' :=
    if String.prefix "xl/worksheets/" name
    then st_worksheets_total st + uncomp else st_worksheets_total st in
  let sharedstrings_size' :=
    if String.eqb name "xl/sharedStrings.xml"
    then Some uncomp else st_sharedstrings_size st in
  ratio <- savings_ratio comp uncomp ;;
  ret (mkScanState
         (st_rows st ++ [mkRow name uncomp comp (PyFloat.round2 ratio)])
         total_uncompressed' total_compressed'
         media_total' media_count' worksheets_total' sharedstrings_size').

(** [for info in zf.infolist(): ...]. *)
Fixpoint scan_loop (st : ScanState) (infos : list ZipInfo) : M ScanState :=
  match infos with
  | [] => ret st
  | info :: rest => st' <- scan_step st info ;; scan_loop st' rest
  end.

(** Lines 100-104: the estimate is attempted only when the member was seen. *)
Definition estimate_count (zf : ZipFile) (size : option Z) : option Z :=
  match size with
  | None => None
  | Some _ => count_shared_strings (zf_open zf "xl/sharedStrings.xml")
  end.

(** [rows.sort(key=lambda r: r["uncompressed_bytes"], reverse=True)]:
    Python's sort is stable, also under [reverse=True]. [insert_row] puts a
    row that came earlier in front of the rows that are not larger. *)
Fixpoint insert_row (r : Row) (sorted : list Row) : list Row :=
  match sorted with
  | [] => [r]
  | r' :: rest =>
      if uncompressed_bytes r' <=? uncompressed_bytes r
      then r :: sorted
      else r' :: insert_row r rest
  end.

Fixpoint sort_rows (rows : list Row) : list Row :=
  match rows with
  | [] => []
  | r :: rest => insert_row r (sort_rows rest)
  end.

(** Line 110: the savings of the grand totals; [if total_uncompressed] is
    true of every non-zero [int]. *)
Definition overall_savings (total_c total_u : Z) : M float :=
  if negb (total_u =? 0) then
    q <- PyFloat.truediv total_c total_u ;;
    ret (PyFloat.round2 ((1 - q) * 100)%float)
  else ret 0%float.

(** Lines 107-116. *)
Definition make_summary (st : ScanState) (count : option Z) : M Summary :=
  overall <- overall_savings (st_total_compressed st) (st_total_uncompressed st) ;;
  ret (mkSummary
         (st_total_uncompressed st) (st_total_compressed st) overall
         (st_media_count st) (st_media_total st) (st_worksheets_total st)
         (st_sharedstrings_size st) count).

(** The body of the [with] block and what follows it, on an opened archive. *)
Definition scan_archive (zf : ZipFile) : M (list Row * Summary) :=
  st <- scan_loop init_state (infolist zf) ;;
  let sharedstrings_count := estimate_count zf (st_sharedstrings_size st) in
  let rows := sort_rows (st_rows st) in
  summary <- make_summary st sharedstrings_count ;;
  ret (rows, summary).

Definition scan_xlsx (fs : filesystem) (p : string) : M (list Row * Summary) :=
  if negb (os_path_exists fs p) then raise (FileNotFoundError p)
  else
    zf <- open_zip fs p ;;
    scan_archive zf.

(** The rows are in non-increasing order of size. *)
Definition size_ge (a b : Row) : Prop :=
  uncompressed_bytes b <= uncompressed_bytes a.

(** The rows of one size, in the order they have in a list. *)
Definition rows_of_size (v : Z) (rows : list Row) : list Row :=
  filter (fun r => uncompressed_bytes r =? v) rows.

(** What the specification says of a savings figure [x] computed from
    [comp] compressed and [uncomp] uncompressed bytes. *)
Definition savings_spec (comp uncomp : Z) (x : float) : Prop :=
  (uncomp = 0 -> x = 0%float) /\
  (uncomp <> 0 ->
   exists q, PyFloat.truediv comp uncomp = inr q /\
             x = PyFloat.round2 ((1 - q) * 100)%float).

(** The same of a row; the size of an archive member is never negative. *)
Definition row_savings_ok (r : Row) : Prop :=
  0 <= uncompressed_bytes r ->
  savings_spec (compressed_bytes r) (uncompressed_bytes r) (compression_savings r).

(** The archive has a member of that name. *)
Definition has_member (name : string) (zf : ZipFile) : Prop :=
  exists info, In info (infolist zf) /\ filename info = name.

(** The sizes of a member are 64-bit fields of the archive's index. *)
Definition valid_member (info : ZipInfo) : Prop :=
  0 <= compress_size info < 2 ^ 64 /\ 0 <= file_size info < 2 ^ 64.

(** So is the number of members. *)
Definition well_formed (zf : ZipFile) : Prop :=
  Forall valid_member (infolist zf) /\
  Z.of_nat (List.length (infolist zf)) < 2 ^ 64.

(** A summary with another estimated count. *)
Definition with_est_count (c : option Z) (s : Summary) : Summary :=
  mkSummary (total_uncompressed s) (total_compressed s)
    (overall_compression_savings s) (media_count s)
    (media_uncompressed_total s) (worksheets_uncompressed_total s)
    (sharedStrings_uncompressed s) c.

(** The archive member a row was built from. *)
Definition member_of_row (r : Row) : ZipInfo :=
  mkZipInfo (path r) (compressed_bytes r) (uncompressed_bytes r).

(** The members of one size, in index order. *)
Definition members_of_size (v : Z) (infos : list ZipInfo) : list ZipInfo :=
  filter (fun i => file_size i =? v) infos.

Definition sum_uncompressed (rows : list Row) : Z :=
  fold_right (fun r acc => uncompressed_bytes r + acc) 0 rows.

Definition sum_compressed (rows : list Row) : Z :=
  fold_right (fun r acc => compressed_bytes r + acc) 0 rows.

(** What holds of the state once the loop has handled the members [infos]. *)
Record loop_post (st : ScanState) (infos : list ZipInfo) : Prop := {
  post_sum_u : sum_uncompressed (st_rows st) = st_total_uncompressed st;
  post_sum_c : sum_compressed (st_rows st) = st_total_compressed st;
  post_members : map member_of_row (st_rows st) = infos;
  post_savings : Forall row_savings_ok (st_rows st);
  post_shared :
    (forall info, In info infos -> filename info <> "xl/sharedStrings.xml") ->
    st_sharedstrings_size st = None
}.

End Scanner.

(** ** Concrete inputs *)

Module Examples.

Import SharedStrings Scanner.

(** A summary on which none of the three thresholds is reached. *)
Definition small_summary : Summary :=
  mkSummary 2048 1024 50%float 0 0 1024 (Some 1024) (Some 2).

Definition workbook_row : Row :=
  mkRow "xl/workbook.xml" 1024 512 50%float.

(** A summary on which all three thresholds are exceeded. *)
Definition bloated_summary : Summary :=
  mkSummary (64 * Advisor.MiB) (32 * Advisor.MiB) 50%float
    3 (11 * Advisor.MiB) (21 * Advisor.MiB) (Some (11 * Advisor.MiB)) None.

(** The shared-strings part of the scenario: two markers. *)
Definition two_entries : bytes :=
  [x3c; x73; x69; x3e; x61; x3c; x2f; x73; x69; x3e;
   x3c; x73; x69; x3e; x62; x3c; x2f; x73; x69; x3e].

(** The archive of the scenario of the specification with an empty member
    added; two of its members have 1 KiB. *)
Definition scenario : ZipFile :=
  mkZipFile
    [ mkZipInfo "xl/worksheets/sheet1.xml" 512 1024;
      mkZipInfo "xl/media/img1.png" (10 * Advisor.MiB) (11 * Advisor.MiB);
      mkZipInfo "xl/sharedStrings.xml" 20 1024;
      mkZipInfo "docProps/empty.bin" 2 0 ]
    (fun name =>
       if String.eqb name "xl/sharedStrings.xml"
       then Opened (read_chunks chunk_size two_entries)
       else OpenKeyError).

(** What the scan of this archive returns; the savings figures print as
    9.09, 50.0, 98.05 and 0.0, the overall one as 9.1. *)
Definition empty_row : Row :=
  mkRow "docProps/empty.bin" 0 2 0%float.

Definition scenario_rows : list Row :=
  [ mkRow "xl/media/img1.png" 11534336 10485760 0x1.22e147ae147aep+3%float;
    mkRow "xl/worksheets/sheet1.xml" 1024 512 50%float;
    mkRow "xl/sharedStrings.xml" 1024 20 0x1.8833333333333p+6%float;
    empty_row ].

Definition scenario_summary : Summary :=
  mkSummary 11536384 10486294 0x1.2333333333333p+3%float 1 11534336 1024 (Some 1024) (Some 2).

(** The same archive with a shared-strings part whose second read fails. *)
Definition damaged : ZipFile :=
  mkZipFile (infolist scenario)
    (fun _ => Opened [Chunk two_entries; ReadError; Chunk two_entries]).

(** The same archive without its shared-strings member. *)
Definition without_shared_strings : ZipFile :=
  mkZipFile
    [ mkZipInfo "xl/worksheets/sheet1.xml" 512 1024;
      mkZipInfo "xl/media/img1.png" (10 * Advisor.MiB) (11 * Advisor.MiB) ]
    (fun _ => OpenKeyError).

Definition empty_archive : ZipFile :=
  mkZipFile [] (fun _ => OpenKeyError).

(** A file system with these archives, a file that is no archive, and
    nothing else. *)
Definition disk : filesystem :=
  fun p =>
    if String.eqb p "book.xlsx" then Archive scenario
    else if String.eqb p "damaged.xlsx" then Archive damaged
    else if String.eqb p "plain.xlsx" then Archive without_shared_strings
    else if String.eqb p "empty.xlsx" then Archive empty_archive
    else if String.eqb p "notes.txt" then NotAnArchive
    else Absent.

(** A shared-strings part whose first marker ends exactly where the first
    read of 65536 bytes ends: 65533 spaces, then the fixture. *)
Definition boundary_part : bytes :=
  repeat x20 (Z.to_nat 65533) ++ fixture.

End Examples.

(** ** The textual count the estimate aims at *)

Module MarkerCount.

Import SharedStrings.

(** The number of positions of [buf] at which the marker starts. *)
Fixpoint occurrences (buf : bytes) : Z :=
  match buf with
  | [] => 0
  | _ :: tl => (if starts_with marker buf then 1 else 0) + occurrences tl
  end.

(** [buf.endswith(b"<si")]: the last three bytes are the marker. *)
Definition ends_with_marker (buf : bytes) : bool :=
  starts_with marker (last_bytes 3 buf).

(** The number of reads, among those that deliver [chunks] after [sofar]
    was delivered, that start right behind a marker. *)
Fixpoint recounted (sofar : bytes) (chunks : list bytes) : Z :=
  match chunks with
  | [] => 0
  | chunk :: rest =>
      (if ends_with_marker sofar then 1 else 0) + recounted (sofar ++ chunk) rest
  end.

End MarkerCount.

(** ** The aggregates of the scan, member by member *)

Module Aggregates.

Import Scanner.

Definition is_media (info : ZipInfo) : bool :=
  String.prefix "xl/media/" (filename info).

Definition is_worksheet (info : ZipInfo) : bool :=
  String.prefix "xl/worksheets/" (filename info).

Definition is_shared_strings (info : ZipInfo) : bool :=
  String.eqb (filename info) "xl/sharedStrings.xml".

Definition total_file_size (infos : list ZipInfo) : Z :=
  fold_right (fun info acc => file_size info + acc) 0 infos.

Definition total_compress_size (infos : list ZipInfo) : Z :=
  fold_right (fun info acc => compress_size info + acc) 0 infos.

(** The size of the last member of the index that is the shared-strings
    part. *)
Definition last_shared_strings_size (infos : list ZipInfo) : option Z :=
  option_map file_size (find is_shared_strings (rev infos)).


(** What holds of the counters once the loop has handled [infos]. *)
Record loop_aggregates (st : ScanState) (infos : list ZipInfo) : Prop := {
  agg_total_u : st_total_uncompressed st = total_file_size infos;
  agg_total_c : st_total_compressed st = total_compress_size infos;
  agg_media_count : st_media_count st = Z.of_nat (List.length (filter is_media infos));
  agg_media_total : st_media_total st = total_file_size (filter is_media infos);
  agg_worksheets : st_worksheets_total st = total_file_size (filter is_worksheet infos);
  agg_shared : st_sharedstrings_size st = last_shared_strings_size infos
}.

End Aggregates.

(** ** The notebook variant: [analyze_xlsx_inline] *)

Module Inline.

Import Scanner.

(** The [summary] dict of lines 263-267: three keys only. *)
Record InlineSummary := mkInlineSummary {
  inline_total_uncompressed : Z;
  inline_total_compressed : Z;
  inline_overall_compression_savings : float
}.

(** The local variables of the loop of lines 250-261. *)
Record InlineState := mkInlineState {
  in_rows : list Row;
  in_total_uncompressed : Z;
  in_total_compressed : Z
}.

Definition inline_init : InlineState := mkInlineState [] 0 0.

(** The body of the loop, lines 251-261. *)
Definition inline_step (st : InlineState) (info : ZipInfo) : M InlineState :=
  let comp := compress_size info in
  let uncomp := file_size info in
  ratio <- savings_ratio comp uncomp ;;
  ret (mkInlineState
         (in_rows st ++ [mkRow (filename info) uncomp comp (PyFloat.round2 ratio)])
         (in_total_uncompressed st + uncomp)
         (in_total_compressed st + comp)).

Fixpoint inline_loop (st : InlineState) (infos : list ZipInfo) : M InlineState :=
  match infos with
  | [] => ret st
  | info :: rest => st' <- inline_step st info ;; inline_loop st' rest
  end.

(** The line [print("Plik nie istnieje:", xlsx_path)] of lines 242-243
    writes: the two arguments with a space between them. *)
Definition missing_message (xlsx_path : string) : string :=
  ("Plik nie istnieje: " ++ xlsx_path)%string.

(** [analyze_xlsx_inline(xlsx_path)]. The pair [(None, None)] it returns for
    a missing path is [None] here. [HAVE_PANDAS] is the module's flag,
    [print] what writing a line to the standard output does (it raises when
    the output is closed or cannot encode the line), and [display] what
    building the data frame and showing it does. *)
Definition analyze_xlsx_inline (HAVE_PANDAS : bool) (print : string -> M unit)
    (display : list Row -> M unit)
    (fs : filesystem) (p : string) : M (option (list Row * InlineSummary)) :=
  if negb (os_path_exists fs p) then
    _ <- print (missing_message p) ;;
    ret None
  else
    zf <- open_zip fs p ;;
    st <- inline_loop inline_init (infolist zf) ;;
    let rows := sort_rows (in_rows st) in
    overall <- overall_savings (in_total_compressed st) (in_total_uncompressed st) ;;
    let summary :=
      mkInlineSummary (in_total_uncompressed st) (in_total_compressed st) overall in
    _ <- (if HAVE_PANDAS then display rows else ret tt) ;;
    ret (Some (rows, summary)).

(** The part of a scanner state the notebook variant keeps. *)
Definition inline_of (st : ScanState) : InlineState :=
  mkInlineState (st_rows st) (st_total_uncompressed st) (st_total_compressed st).

(** The three keys the two summaries share. *)
Definition inline_summary_of (s : Summary) : InlineSummary :=
  mkInlineSummary (total_uncompressed s) (total_compressed s)
    (overall_compression_savings s).

End Inline.

(** ** What [main] passes to the advisor *)

Module Report.

(** [rows[:n]]: a negative [n] counts from the end. *)
Definition slice_to {A} (n : Z) (rows : list A) : list A :=
  if 0 <=? n then firstn (Z.to_nat n) rows
  else firstn (List.length rows - Z.to_nat (- n)) rows.

(** Line 176: the suggestions printed, for [--top n]. *)
Definition console_tips (top : Z) (summary : Summary) (rows : list Row) : list string :=
  Advisor.suggest_actions summary (slice_to top rows).

(** Line 218: the suggestions written to the text file. *)
Definition txt_tips (summary : Summary) (rows : list Row) : list string :=
  Advisor.suggest_actions summary (slice_to 25 rows).

End Report.

(** ** Sizes for people: [human_bytes] *)

Module HumanBytes.


(** [float(n)] on an [int]: the nearest float, ties to even;
    [OverflowError] when [n] is too large. *)
Definition float_of_int (n : Z) : M float :=
  match binary_normalize prec emax n 0 false with
  | S754_infinity _ => raise OverflowError
  | x => ret (SF2Prim x)
  end.

(** The loop of lines 36-38, on the unit reached and the larger units left:
    [i < len(units) - 1] holds as long as a larger unit is left. *)
Fixpoint scale (f : float) (unit : string) (larger : list string) : float * string :=
  match larger with
  | [] => (f, unit)
  | next :: rest =>
      if (1024 <=? f)%float then scale (f / 1024)%float next rest else (f, unit)
  end.

(** A natural number in decimal. *)
Definition decimal (n : Z) : string :=
  NilZero.string_of_uint (N.to_uint (Z.to_N n)).

Definition two_digits (n : Z) : string :=
  (decimal (n / 10) ++ decimal (n mod 10))%string.

Definition sign_text (s : bool) : string := if s then "-" else "".

(** [f"{f:.2f}"]: the exact value of [f] rounded to hundredths, ties to
    even. *)
Definition format_2f (f : float) : string :=
  match Prim2SF f with
  | S754_zero s => (sign_text s ++ "0.00")%string
  | S754_finite s m e =>
      let k := PyFloat.hundredths m e in
      (sign_text s ++ decimal (k / 100) ++ "." ++ two_digits (k mod 100))%string
  | S754_infinity s => (sign_text s ++ "inf")%string
  | S754_nan => "nan"
  end.

Definition human_bytes (n : option Z) : M string :=
  match n with
  | None => ret "—"
  | Some n =>
      f <- float_of_int n ;;
      let '(f', unit) := scale f "B" ["KB"; "MB"; "GB"; "TB"] in
      ret (format_2f f' ++ " " ++ unit)%string
  end.

End HumanBytes.

(** * Properties *)

(** ** The advisor *)

Section AdvisorFacts.

Import Advisor.

Lemma append_if_length c x tips :
  (List.length tips <= List.length (append_if c x tips) <= S (List.length tips))%nat.
Proof.
  destruct c; simpl; [rewrite length_app; simpl|]; lia.
Qed.

Lemma threshold_tips_length s :
  (List.length (threshold_tips s) <= 3)%nat.
Proof.
  unfold threshold_tips.
  pose proof (append_if_length (media_fires s) media_tip []) as H1.
  pose proof (append_if_length (shared_strings_fires s) shared_strings_tip
                (append_if (media_fires s) media_tip [])) as H2.
  pose proof (append_if_length (worksheets_fires s) worksheets_tip
                (append_if (shared_strings_fires s) shared_strings_tip
                   (append_if (media_fires s) media_tip []))) as H3.
  simpl in H1. lia.
Qed.

Lemma in_append_if c x tips y :
  In y (append_if c x tips) -> In y tips \/ y = x.
Proof.
  destruct c; simpl; auto.
  rewrite in_app_iff; simpl. intuition.
Qed.

Lemma fallback_not_threshold s :
  ~ In fallback_tip (threshold_tips s).
Proof.
  unfold threshold_tips. intros H.
  repeat (apply in_append_if in H; destruct H as [H | H]; [| discriminate H]).
  exact H.
Qed.

Lemma fallback_not_largest worst :
  fallback_tip <> largest_tip worst.
Proof.
  unfold fallback_tip, largest_tip. simpl. intros H. discriminate H.
Qed.

(** With a non-empty [top_paths] the result is the threshold suggestions
    followed by the largest-item suggestion. *)
Lemma suggest_actions_cons s r rest :
  suggest_actions s (r :: rest) = threshold_tips s ++ [largest_tip (path r)].
Proof.
  unfold suggest_actions; simpl.
  destruct (threshold_tips s); reflexivity.
Qed.

(** With an empty [top_paths] the result is the threshold suggestions, or
    the fallback alone when there is none. *)
Lemma suggest_actions_nil s :
  suggest_actions s [] = append_fallback (threshold_tips s).
Proof. reflexivity. Qed.

Lemma fallback_in_iff s top_paths :
  In fallback_tip (suggest_actions s top_paths) <->
  threshold_tips s = [] /\ top_paths = [].
Proof.
  destruct top_paths as [| r rest].
  - rewrite suggest_actions_nil.
    pose proof (fallback_not_threshold s) as Hn.
    destruct (threshold_tips s) as [| t ts]; simpl.
    + intuition.
    + split; [intros H; exfalso; apply Hn; exact H | intros [H _]; discriminate H].
  - rewrite suggest_actions_cons, in_app_iff. simpl.
    split.
    + intros [H | [H | []]].
      * exfalso. exact (fallback_not_threshold s H).
      * exfalso. symmetry in H. exact (fallback_not_largest _ H).
    + intros [_ H]. discriminate H.
Qed.

(** C1 (as the code has it): the generic fallback is in the output exactly
    when rules 1-3 produced no suggestion and [top_paths] is empty, so the
    largest-item suggestion of rule 4 suppresses it; when [top_paths] is not
    empty and none of rules 1-3 fires the output is the largest-item
    suggestion alone. *)
Theorem fallback_iff_no_tip_at_all s top_paths :
  (In fallback_tip (suggest_actions s top_paths) <->
   threshold_tips s = [] /\ top_paths = []) /\
  (forall r rest, top_paths = r :: rest -> threshold_tips s = [] ->
     suggest_actions s top_paths = [largest_tip (path r)]).
Proof.
  split.
  - apply fallback_in_iff.
  - intros r rest -> Hnil. rewrite suggest_actions_cons, Hnil. reflexivity.
Qed.

(** C1 as the specification states it fails: on [small_summary] none of
    rules 1-3 fires and [top_paths] is not empty, yet the output holds the
    largest-item suggestion without the generic fallback. *)
Lemma fallback_missing_beside_largest :
  threshold_tips Examples.small_summary = [] /\
  In (largest_tip "xl/workbook.xml")
     (suggest_actions Examples.small_summary [Examples.workbook_row]) /\
  ~ In fallback_tip (suggest_actions Examples.small_summary [Examples.workbook_row]).
Proof.
  split; [reflexivity |]. split.
  - left. reflexivity.
  - intros H. apply fallback_in_iff in H. destruct H as [_ H]. discriminate H.
Qed.

(** C8: whenever [top_paths] is not empty the output contains the
    largest-item suggestion naming the path of [top_paths[0]], that is the
    text of line 138 with that path in it, whatever the summary is, so
    whether or not any of rules 1-3 fired. *)
Theorem largest_tip_always_present s r rest :
  In ("Największy element: " ++ path r ++
      " → sprawdź, czy jest potrzebny i czy da się go zredukować.")%string
     (suggest_actions s (r :: rest)).
Proof.
  rewrite suggest_actions_cons. apply in_or_app. right. left. reflexivity.
Qed.

(** C9: [suggest_actions] returns between one and four suggestions, and the
    generic fallback occurs only as the sole element of the output. *)
Theorem suggestions_count_and_lone_fallback s top_paths :
  (1 <= List.length (suggest_actions s top_paths) <= 4)%nat /\
  (In fallback_tip (suggest_actions s top_paths) ->
   suggest_actions s top_paths = [fallback_tip]).
Proof.
  split.
  - pose proof (threshold_tips_length s) as Hlen.
    destruct top_paths as [| r rest].
    + rewrite suggest_actions_nil.
      destruct (threshold_tips s); simpl in *; lia.
    + rewrite suggest_actions_cons, length_app. simpl. lia.
  - intros H. apply fallback_in_iff in H. destruct H as [Hnil ->].
    rewrite suggest_actions_nil, Hnil. reflexivity.
Qed.

(** Both bounds are reached. *)
Example suggestions_count_bounds_reached :
  suggest_actions Examples.small_summary [] = [fallback_tip] /\
  suggest_actions Examples.bloated_summary [Examples.workbook_row] =
    [media_tip; shared_strings_tip; worksheets_tip; largest_tip "xl/workbook.xml"].
Proof. split; reflexivity. Qed.

End AdvisorFacts.

(** ** The shared-strings entry count *)

Section SharedStringsFacts.

Import SharedStrings.

(** Read in one piece, the fixture holds three markers. *)
Lemma fixture_whole :
  bytes_count marker fixture = 3 /\
  count_shared_strings (Opened [Chunk fixture]) = Some 3.
Proof. split; reflexivity. Qed.

(** Away from the two offsets where a marker ends, a split of the fixture
    does not change the count. *)
Lemma fixture_split_elsewhere (k : nat) :
  k <> 3%nat -> k <> 7%nat ->
  count_shared_strings (Opened (split_reads k fixture)) = Some 3.
Proof.
  intros H3 H7.
  do 13 (destruct k as [| k]; [first [reflexivity | congruence] |]).
  reflexivity.
Qed.

(** Under the rule of the specification every split of the fixture gives 3. *)
Lemma spec_rule_fixture_any_split (k : nat) :
  spec_count_loop (split_reads k fixture) 0 [] = Some 3.
Proof.
  do 13 (destruct k as [| k]; [reflexivity |]).
  reflexivity.
Qed.

(** C2 (the code departs from it): the loop keeps the last three bytes of
    the buffer, so a marker that ends exactly at the end of a read is counted
    again with the next read. The fixture split after its third or seventh
    byte gives 4, not 3; so does a part of 65545 bytes, read 65536 bytes at a
    time, whose first marker ends with the first read. *)
Theorem marker_at_read_end_counted_twice :
  count_shared_strings (Opened (split_reads 3 fixture)) = Some 4 /\
  count_shared_strings (Opened (split_reads 7 fixture)) = Some 4 /\
  bytes_count marker Examples.boundary_part = 3 /\
  count_shared_strings (Opened (read_chunks chunk_size Examples.boundary_part)) = Some 4.
Proof.
  repeat split; vm_compute; reflexivity.
Qed.

(** A read that raises, reached after reads of non-empty chunks only, makes
    the loop give no count. *)
Lemma count_loop_read_error pre post :
  Forall nonempty_chunk pre ->
  forall count buf, count_loop (pre ++ ReadError :: post) count buf = None.
Proof.
  induction 1 as [| r pre Hr _ IH]; intros count buf.
  - reflexivity.
  - destruct r as [[| b chunk] |]; try contradiction.
    simpl. apply IH.
Qed.

End SharedStringsFacts.

(** ** Division of sizes *)

Section FloatFacts.

(** The number of binary digits is the logarithm plus one. *)
Lemma digits2_pos_log2 p : Zpos (digits2_pos p) = Z.log2 (Zpos p) + 1.
Proof.
  assert (Hsize : forall q, digits2_pos q = Pos.size q).
  { induction q as [q IH | q IH |]; simpl; congruence. }
  destruct p as [p | p |]; simpl; rewrite ?Hsize; try lia.
Qed.

Lemma Zdigits2_le m k :
  0 <= m < 2 ^ k -> 0 <= k -> 0 <= Zdigits2 m <= k.
Proof.
  intros [Hm Hlt] Hk. destruct m as [| p | p]; unfold Zdigits2; [lia | | lia].
  rewrite digits2_pos_log2.
  pose proof (Z.log2_nonneg (Zpos p)).
  assert (Z.log2 (Zpos p) < k) by (apply Z.log2_lt_pow2; lia).
  lia.
Qed.

Lemma Zdigits2_gt m : 0 <= m -> m < 2 ^ Zdigits2 m.
Proof.
  intros Hm. destruct m as [| p | p]; unfold Zdigits2; [simpl; lia | | lia].
  rewrite digits2_pos_log2.
  pose proof (Z.log2_spec (Zpos p) ltac:(lia)) as [_ H].
  replace (Z.log2 (Zpos p) + 1) with (Z.succ (Z.log2 (Zpos p))) by lia. exact H.
Qed.

(** A right shift halves the mantissa. *)
Lemma shr_1_half mrs :
  0 <= shr_m mrs -> 0 <= shr_m (shr_1 mrs) /\ 2 * shr_m (shr_1 mrs) <= shr_m mrs.
Proof.
  destruct mrs as [m r s]. simpl.
  destruct m as [| [p | p |] | p]; simpl; lia.
Qed.

Lemma iter_shr_1_bound p :
  forall mrs, 0 <= shr_m mrs ->
    0 <= shr_m (iter_pos shr_1 p mrs) /\
    2 ^ Zpos p * shr_m (iter_pos shr_1 p mrs) <= shr_m mrs.
Proof.
  induction p as [p IH | p IH |]; intros mrs Hm; simpl iter_pos.
  - destruct (shr_1_half mrs Hm) as [H0 H1].
    destruct (IH _ H0) as [H2 H3].
    destruct (IH _ H2) as [H4 H5].
    split; [exact H4 |].
    replace (Zpos p~1) with (Zpos p + Zpos p + 1) by lia.
    rewrite !Z.pow_add_r by lia.
    assert (0 < 2 ^ Zpos p) by (apply Z.pow_pos_nonneg; lia).
    nia.
  - destruct (IH _ Hm) as [H2 H3].
    destruct (IH _ H2) as [H4 H5].
    split; [exact H4 |].
    replace (Zpos p~0) with (Zpos p + Zpos p) by lia.
    rewrite !Z.pow_add_r by lia.
    assert (0 < 2 ^ Zpos p) by (apply Z.pow_pos_nonneg; lia).
    nia.
  - destruct (shr_1_half mrs Hm) as [H0 H1]. split; [exact H0 |].
    change (2 ^ 1) with 2. exact H1.
Qed.

(** Brought to the format's exponent, a mantissa has at most 53 digits. *)
Lemma shr_fexp_bound m e l :
  0 <= m ->
  0 <= shr_m (fst (shr_fexp prec emax m e l)) < 2 ^ 53 /\
  snd (shr_fexp prec emax m e l) = Z.max e (fexp prec emax (Zdigits2 m + e)).
Proof.
  intros Hm. unfold shr_fexp, shr.
  pose proof (Zdigits2_gt m Hm) as Hd.
  assert (Hrec : shr_m (shr_record_of_loc m l) = m) by (destruct l as [| []]; reflexivity).
  assert (Hdn : 0 <= Zdigits2 m).
  { destruct m; simpl; lia. }
  remember (fexp prec emax (Zdigits2 m + e)) as f eqn:Hf.
  assert (Hfe : Zdigits2 m + e - 53 <= f).
  { subst f. unfold fexp, prec. lia. }
  destruct (f - e) as [| n | n] eqn:Hn; cbn [fst snd].
  - rewrite Hrec. split; [| lia]. split; [lia |].
    eapply Z.lt_le_trans; [exact Hd |]. apply Z.pow_le_mono_r; lia.
  - destruct (iter_shr_1_bound n (shr_record_of_loc m l)) as [H0 H1]; [rewrite Hrec; lia |].
    rewrite Hrec in H1. split; [| lia]. split; [exact H0 |].
    assert (Hp : m < 2 ^ Zpos n * 2 ^ 53).
    { rewrite <- Z.pow_add_r by lia.
      eapply Z.lt_le_trans; [exact Hd |]. apply Z.pow_le_mono_r; lia. }
    assert (0 < 2 ^ Zpos n) by (apply Z.pow_pos_nonneg; lia).
    nia.
  - rewrite Hrec. split; [| lia]. split; [lia |].
    eapply Z.lt_le_trans; [exact Hd |]. apply Z.pow_le_mono_r; lia.
Qed.

Lemma round_nearest_even_bound m l :
  0 <= m -> m <= round_nearest_even m l <= m + 1.
Proof.
  intros Hm. destruct l as [| []]; simpl; try lia.
  destruct (Z.even m); lia.
Qed.

(** Rounding a number below [2 ^ 1000] does not overflow. *)
Lemma binary_round_aux_finite sx mx ex lx :
  0 <= mx -> ex <= 0 -> Zdigits2 mx + ex <= 1000 ->
  forall s, binary_round_aux prec emax sx mx ex lx <> S754_infinity s.
Proof.
  intros Hm He HB s. unfold binary_round_aux.
  pose proof (shr_fexp_bound mx ex lx Hm) as [H1 H2].
  destruct (shr_fexp prec emax mx ex lx) as [mrs1 e1]. cbn [fst snd] in H1, H2.
  pose proof (round_nearest_even_bound (shr_m mrs1) (loc_of_shr_record mrs1) ltac:(lia)) as H3.
  set (m2 := round_nearest_even (shr_m mrs1) (loc_of_shr_record mrs1)) in *.
  pose proof (shr_fexp_bound m2 e1 loc_Exact ltac:(lia)) as [H4 H5].
  destruct (shr_fexp prec emax m2 e1 loc_Exact) as [mrs2 e2]. cbn [fst snd] in H4, H5.
  assert (Hd2 : 0 <= Zdigits2 m2 <= 54).
  { apply Zdigits2_le; [| lia]. change (2 ^ 54) with (2 * 2 ^ 53). lia. }
  assert (He2 : e2 <= 971).
  { subst e2 e1. unfold fexp, SpecFloat.emin, prec, emax in *. lia. }
  destruct (shr_m mrs2); try discriminate.
  destruct (Z.leb_spec e2 (emax - prec)) as [_ | Hgt]; [discriminate |].
  unfold emax, prec in Hgt. lia.
Qed.

Lemma SFdiv_core_bound pa pb :
  Zpos pa < 2 ^ 1000 ->
  let '(mz, ez, _) := SFdiv_core_binary prec emax (Zpos pa) 0 (Zpos pb) 0 in
  0 <= mz /\ ez <= 0 /\ Zdigits2 mz + ez <= 1000.
Proof.
  intros Ha. unfold SFdiv_core_binary.
  set (e' := Z.min _ _).
  assert (He : e' <= 0) by (subst e'; lia).
  replace (0 - 0 - e') with (- e') by lia.
  set (m' := match - e' with Z0 => Zpos pa | Zpos _ => Z.shiftl (Zpos pa) (- e') | Zneg _ => 0 end).
  assert (Hm' : m' = Zpos pa * 2 ^ (- e')).
  { subst m'. destruct (- e') as [| n | n] eqn:E; [rewrite Z.pow_0_r; lia | | lia].
    rewrite Z.shiftl_mul_pow2 by lia. reflexivity. }
  clearbody m'.
  pose proof (Z.div_eucl_eq m' (Zpos pb) ltac:(lia)) as Heq.
  pose proof (Z.mod_pos_bound m' (Zpos pb) ltac:(lia)) as Hr.
  unfold Z.modulo in Hr.
  destruct (Z.div_eucl m' (Zpos pb)) as [q r].
  assert (Hp : 0 < 2 ^ (- e')) by (apply Z.pow_pos_nonneg; lia).
  assert (Hq0 : 0 <= q) by nia.
  assert (Hq : q < 2 ^ (1000 - e')).
  { replace (1000 - e') with (1000 + - e') by lia. rewrite Z.pow_add_r by lia. nia. }
  pose proof (Zdigits2_le q (1000 - e') (conj Hq0 Hq) ltac:(lia)).
  lia.
Qed.

(** The quotient of a size by a positive size is a float: no
    [OverflowError]. *)
Lemma truediv_total a b :
  0 <= a < 2 ^ 1000 -> 0 < b -> exists q, PyFloat.truediv a b = inr q.
Proof.
  intros [Ha0 Ha] Hb. unfold PyFloat.truediv.
  destruct (Z.eqb_spec b 0) as [E | _]; [lia |].
  destruct b as [| pb | pb]; try lia.
  destruct a as [| pa | pa]; try lia.
  - eexists. reflexivity.
  - cbn [PyFloat.Z2SF SFdiv xorb].
    pose proof (SFdiv_core_bound pa pb Ha) as Hcore.
    destruct (SFdiv_core_binary prec emax (Zpos pa) 0 (Zpos pb) 0) as [[mz ez] lz].
    destruct Hcore as (H0 & H1 & H2).
    pose proof (binary_round_aux_finite false mz ez lz H0 H1 H2) as Hfin.
    destruct (binary_round_aux prec emax false mz ez lz) as [s | s | | s m e];
      try (eexists; reflexivity).
    exfalso. exact (Hfin s eq_refl).
Qed.

End FloatFacts.

(** ** The scanner *)

Section SortFacts.

Import Scanner.

Lemma insert_row_perm r rows :
  Permutation (insert_row r rows) (r :: rows).
Proof.
  induction rows as [| r' rest IH]; simpl.
  - apply Permutation_refl.
  - destruct (uncompressed_bytes r' <=? uncompressed_bytes r).
    + apply Permutation_refl.
    + eapply perm_trans; [apply perm_skip, IH | apply perm_swap].
Qed.

Lemma sort_rows_perm rows :
  Permutation (sort_rows rows) rows.
Proof.
  induction rows as [| r rest IH]; simpl.
  - constructor.
  - eapply perm_trans; [apply insert_row_perm | apply perm_skip, IH].
Qed.

Lemma sum_uncompressed_perm rows rows' :
  Permutation rows rows' -> sum_uncompressed rows = sum_uncompressed rows'.
Proof.
  induction 1; simpl; lia.
Qed.

Lemma sum_compressed_perm rows rows' :
  Permutation rows rows' -> sum_compressed rows = sum_compressed rows'.
Proof.
  induction 1; simpl; lia.
Qed.

Lemma sum_uncompressed_app rows rows' :
  sum_uncompressed (rows ++ rows') = sum_uncompressed rows + sum_uncompressed rows'.
Proof.
  induction rows as [| r rest IH]; simpl; lia.
Qed.

Lemma sum_compressed_app rows rows' :
  sum_compressed (rows ++ rows') = sum_compressed rows + sum_compressed rows'.
Proof.
  induction rows as [| r rest IH]; simpl; lia.
Qed.

Lemma insert_row_sorted r rows :
  StronglySorted size_ge rows -> StronglySorted size_ge (insert_row r rows).
Proof.
  induction 1 as [| r' rest Hs IH Hall]; simpl.
  - repeat constructor.
  - destruct (Z.leb_spec (uncompressed_bytes r') (uncompressed_bytes r)) as [Hle | Hgt].
    + constructor; [constructor; assumption |].
      constructor; [exact Hle |].
      eapply Forall_impl; [| exact Hall].
      unfold size_ge; intros; lia.
    + constructor; [exact IH |].
      apply Forall_forall. intros x Hx.
      apply (Permutation_in _ (insert_row_perm r rest)) in Hx.
      destruct Hx as [<- | Hx].
      * unfold size_ge; lia.
      * rewrite Forall_forall in Hall. apply Hall, Hx.
Qed.

Lemma sort_rows_sorted rows :
  StronglySorted size_ge (sort_rows rows).
Proof.
  induction rows as [| r rest IH]; simpl.
  - constructor.
  - apply insert_row_sorted, IH.
Qed.

(** A row is inserted behind larger rows only, so it overtakes no row of
    its own size. *)
Lemma insert_row_stable v r rows :
  rows_of_size v (insert_row r rows) = rows_of_size v (r :: rows).
Proof.
  induction rows as [| r' rest IH]; [reflexivity |].
  simpl insert_row.
  destruct (Z.leb_spec (uncompressed_bytes r') (uncompressed_bytes r)) as [Hle | Hgt];
    [reflexivity |].
  unfold rows_of_size in *. simpl in *. rewrite IH.
  destruct (Z.eqb_spec (uncompressed_bytes r') v) as [E1 | N1];
    destruct (Z.eqb_spec (uncompressed_bytes r) v) as [E2 | N2];
    try reflexivity.
  lia.
Qed.

Lemma sort_rows_stable v rows :
  rows_of_size v (sort_rows rows) = rows_of_size v rows.
Proof.
  induction rows as [| r rest IH]; [reflexivity |].
  simpl sort_rows. rewrite insert_row_stable.
  unfold rows_of_size in *. simpl. rewrite IH. reflexivity.
Qed.

Lemma rows_of_size_head v r rows :
  uncompressed_bytes r = v -> rows_of_size v (r :: rows) = r :: rows_of_size v rows.
Proof.
  intros H. unfold rows_of_size. simpl. rewrite (proj2 (Z.eqb_eq _ _) H). reflexivity.
Qed.

Lemma rows_of_size_skip v r rows :
  uncompressed_bytes r <> v -> rows_of_size v (r :: rows) = rows_of_size v rows.
Proof.
  intros H. unfold rows_of_size. simpl. rewrite (proj2 (Z.eqb_neq _ _) H). reflexivity.
Qed.

Lemma rows_of_size_in v r rows :
  In r (rows_of_size v rows) -> In r rows.
Proof.
  unfold rows_of_size. rewrite filter_In. tauto.
Qed.

(** The head of a sorted list is not smaller than the head of another
    sorted list with the same rows of each size. *)
Lemma sorted_head_ge a l1 b l2 :
  StronglySorted size_ge (b :: l2) ->
  (forall v, rows_of_size v (a :: l1) = rows_of_size v (b :: l2)) ->
  uncompressed_bytes a <= uncompressed_bytes b.
Proof.
  intros Hs Heq.
  assert (Hin : In a (b :: l2)).
  { apply (rows_of_size_in (uncompressed_bytes a)). rewrite <- Heq.
    rewrite rows_of_size_head by reflexivity. left. reflexivity. }
  destruct Hin as [<- | Hin]; [lia |].
  apply StronglySorted_inv in Hs. destruct Hs as [_ Hall].
  rewrite Forall_forall in Hall. apply (Hall a Hin).
Qed.

(** A stable sort has one result only: two sorted lists with the same rows
    of each size, in the same order, are equal. So [sort_rows] is what
    [list.sort] returns, whichever way it sorts. *)
Lemma stable_sort_unique l1 :
  forall l2,
    StronglySorted size_ge l1 -> StronglySorted size_ge l2 ->
    (forall v, rows_of_size v l1 = rows_of_size v l2) ->
    l1 = l2.
Proof.
  induction l1 as [| a l1 IH]; intros [| b l2] Hs1 Hs2 Heq.
  - reflexivity.
  - specialize (Heq (uncompressed_bytes b)).
    rewrite rows_of_size_head in Heq by reflexivity. discriminate Heq.
  - specialize (Heq (uncompressed_bytes a)).
    rewrite rows_of_size_head in Heq by reflexivity. discriminate Heq.
  - assert (Hab : uncompressed_bytes a = uncompressed_bytes b).
    { apply Z.le_antisymm.
      - apply (sorted_head_ge a l1 b l2 Hs2 Heq).
      - apply (sorted_head_ge b l2 a l1 Hs1). intros v. symmetry. apply Heq. }
    pose proof (Heq (uncompressed_bytes a)) as Hhead.
    rewrite rows_of_size_head in Hhead by reflexivity.
    rewrite rows_of_size_head in Hhead by (symmetry; exact Hab).
    injection Hhead as -> Htail.
    f_equal. apply IH.
    + apply StronglySorted_inv in Hs1. tauto.
    + apply StronglySorted_inv in Hs2. tauto.
    + intros v. destruct (Z.eq_dec (uncompressed_bytes b) v) as [E | N].
      * subst v. exact Htail.
      * specialize (Heq v). rewrite !rows_of_size_skip in Heq by exact N. exact Heq.
Qed.

(** Filtering rows by size and members by size agree. *)
Lemma members_of_rows_of_size v rows :
  map member_of_row (rows_of_size v rows) =
  members_of_size v (map member_of_row rows).
Proof.
  unfold rows_of_size, members_of_size.
  induction rows as [| r rest IH]; simpl; [reflexivity |].
  destruct (uncompressed_bytes r =? v); simpl; rewrite IH; reflexivity.
Qed.

End SortFacts.

Section ScanFacts.

Import SharedStrings Scanner.

Lemma truediv_zero_division a b :
  PyFloat.truediv a b = inl ZeroDivisionError -> b = 0.
Proof.
  unfold PyFloat.truediv.
  destruct (Z.eqb_spec b 0) as [E | N]; [intros _; exact E |].
  destruct (SFdiv prec emax (PyFloat.Z2SF a) (PyFloat.Z2SF b)); discriminate.
Qed.

Lemma round2_zero : PyFloat.round2 0%float = 0%float.
Proof. reflexivity. Qed.

Lemma savings_ratio_no_zero_division comp uncomp :
  savings_ratio comp uncomp <> inl ZeroDivisionError.
Proof.
  unfold savings_ratio.
  destruct (Z.gtb_spec uncomp 0) as [Hpos | Hle]; [| discriminate].
  destruct (PyFloat.truediv comp uncomp) as [e |] eqn:E; simpl; [| discriminate].
  intros [= ->]. apply truediv_zero_division in E. lia.
Qed.

Lemma overall_savings_no_zero_division total_c total_u :
  overall_savings total_c total_u <> inl ZeroDivisionError.
Proof.
  unfold overall_savings.
  destruct (Z.eqb_spec total_u 0) as [E | N]; simpl; [discriminate |].
  destruct (PyFloat.truediv total_c total_u) as [e |] eqn:E; simpl; [| discriminate].
  intros [= ->]. apply truediv_zero_division in E. contradiction.
Qed.

Lemma overall_savings_spec total_c total_u x :
  overall_savings total_c total_u = inr x -> savings_spec total_c total_u x.
Proof.
  unfold overall_savings, savings_spec.
  destruct (Z.eqb_spec total_u 0) as [E | N]; simpl.
  - intros [= <-]. split; [reflexivity | contradiction].
  - destruct (PyFloat.truediv total_c total_u) as [e | q]; simpl; [discriminate |].
    intros [= <-]. split; [contradiction | intros _; exists q; split; reflexivity].
Qed.

Lemma savings_ratio_spec comp uncomp ratio :
  savings_ratio comp uncomp = inr ratio -> 0 <= uncomp ->
  savings_spec comp uncomp (PyFloat.round2 ratio).
Proof.
  unfold savings_ratio, savings_spec.
  destruct (Z.gtb_spec uncomp 0) as [Hpos | Hle].
  - destruct (PyFloat.truediv comp uncomp) as [e | q]; simpl; [discriminate |].
    intros [= <-] _. split; [lia | intros _; exists q; split; reflexivity].
  - intros [= <-] Hnn. split; [intros _; apply round2_zero | lia].
Qed.

(** What one pass of the loop body does when it does not raise. *)
Lemma scan_step_inr st info st' :
  scan_step st info = inr st' ->
  exists ratio,
    savings_ratio (compress_size info) (file_size info) = inr ratio /\
    st_rows st' =
      st_rows st ++ [mkRow (filename info) (file_size info) (compress_size info)
                       (PyFloat.round2 ratio)] /\
    st_total_uncompressed st' = st_total_uncompressed st + file_size info /\
    st_total_compressed st' = st_total_compressed st + compress_size info /\
    st_sharedstrings_size st' =
      (if String.eqb (filename info) "xl/sharedStrings.xml"
       then Some (file_size info) else st_sharedstrings_size st).
Proof.
  unfold scan_step.
  destruct (savings_ratio (compress_size info) (file_size info)) as [e | ratio];
    simpl; [discriminate |].
  intros [= <-]. exists ratio. simpl. repeat split; reflexivity.
Qed.

(** The loop rule: a property of the state and of the members handled so
    far that every pass keeps holds when the loop ends. *)
Lemma scan_loop_invariant (I : ScanState -> list ZipInfo -> Prop) :
  (forall st done info st',
     I st done -> scan_step st info = inr st' -> I st' (done ++ [info])) ->
  forall infos st done st',
    I st done -> scan_loop st infos = inr st' -> I st' (done ++ infos).
Proof.
  intros Hstep. induction infos as [| info rest IH]; intros st done st' HI; simpl.
  - intros [= <-]. rewrite app_nil_r. exact HI.
  - destruct (scan_step st info) as [e | st1] eqn:E; simpl; [discriminate |].
    intros Hloop.
    replace (done ++ info :: rest) with ((done ++ [info]) ++ rest)
      by (rewrite <- app_assoc; reflexivity).
    eapply IH; [| exact Hloop]. eapply Hstep; eassumption.
Qed.

Lemma scan_loop_no_zero_division infos :
  forall st, scan_loop st infos <> inl ZeroDivisionError.
Proof.
  induction infos as [| info rest IH]; intros st; simpl; [discriminate |].
  destruct (scan_step st info) as [e | st1] eqn:E; simpl; [| apply IH].
  intros [= ->]. revert E. unfold scan_step.
  destruct (savings_ratio (compress_size info) (file_size info)) as [e |] eqn:E;
    simpl; [| discriminate].
  intros [= ->]. exact (savings_ratio_no_zero_division _ _ E).
Qed.

Lemma loop_post_init : loop_post init_state [].
Proof.
  constructor; simpl; try reflexivity. constructor.
Qed.

Lemma loop_post_step st done info st' :
  loop_post st done -> scan_step st info = inr st' -> loop_post st' (done ++ [info]).
Proof.
  intros [Hu Hc Hm Hs Hsh] Hstep.
  apply scan_step_inr in Hstep.
  destruct Hstep as (ratio & Hratio & Hrows & Htu & Htc & Hss).
  constructor.
  - rewrite Hrows, Htu, sum_uncompressed_app, Hu. simpl. lia.
  - rewrite Hrows, Htc, sum_compressed_app, Hc. simpl. lia.
  - rewrite Hrows, map_app, Hm. simpl. unfold member_of_row. simpl.
    destruct info; reflexivity.
  - rewrite Hrows. apply Forall_app. split; [exact Hs |].
    constructor; [| constructor].
    unfold row_savings_ok. simpl. apply savings_ratio_spec, Hratio.
  - intros Hno. rewrite Hss.
    destruct (String.eqb_spec (filename info) "xl/sharedStrings.xml") as [E | N].
    + exfalso. apply (Hno info); [apply in_or_app; right; left; reflexivity | exact E].
    + apply Hsh. intros i Hi. apply Hno, in_or_app. left. exact Hi.
Qed.

Lemma scan_loop_post infos st :
  scan_loop init_state infos = inr st -> loop_post st infos.
Proof.
  intros H.
  apply (scan_loop_invariant loop_post loop_post_step infos init_state [] st loop_post_init H).
Qed.

(** A successful scan, taken apart. *)
Lemma scan_xlsx_inr fs p rows summary :
  scan_xlsx fs p = inr (rows, summary) ->
  exists zf st overall,
    fs p = Archive zf /\
    scan_loop init_state (infolist zf) = inr st /\
    overall_savings (st_total_compressed st) (st_total_uncompressed st) = inr overall /\
    rows = sort_rows (st_rows st) /\
    summary =
      mkSummary (st_total_uncompressed st) (st_total_compressed st) overall
        (st_media_count st) (st_media_total st) (st_worksheets_total st)
        (st_sharedstrings_size st)
        (estimate_count zf (st_sharedstrings_size st)).
Proof.
  unfold scan_xlsx, os_path_exists, open_zip.
  destruct (fs p) as [| | zf]; simpl; try discriminate.
  unfold scan_archive.
  destruct (scan_loop init_state (infolist zf)) as [e | st] eqn:Hloop; simpl;
    [discriminate |].
  unfold make_summary.
  destruct (overall_savings (st_total_compressed st) (st_total_uncompressed st))
    as [e | overall] eqn:Hoverall; simpl; [discriminate |].
  intros [= <- <-]. exists zf, st, overall. repeat split; assumption.
Qed.

Lemma scan_xlsx_archive fs p zf :
  fs p = Archive zf -> scan_xlsx fs p = scan_archive zf.
Proof.
  intros H. unfold scan_xlsx, os_path_exists, open_zip. rewrite H. reflexivity.
Qed.

(** *** The scan of a well-formed archive does not raise *)

Lemma savings_ratio_total comp uncomp :
  0 <= comp < 2 ^ 64 -> exists ratio, savings_ratio comp uncomp = inr ratio.
Proof.
  intros Hc. unfold savings_ratio.
  destruct (Z.gtb_spec uncomp 0) as [Hpos | Hle]; [| eexists; reflexivity].
  destruct (truediv_total comp uncomp) as [q Hq]; [| lia |].
  - split; [lia |]. eapply Z.lt_trans; [apply Hc |].
    apply Z.pow_lt_mono_r; lia.
  - rewrite Hq. eexists. reflexivity.
Qed.

Lemma scan_loop_total infos :
  Forall valid_member infos ->
  forall st, exists st', scan_loop st infos = inr st'.
Proof.
  induction 1 as [| info rest [Hc _] _ IH]; intros st; simpl.
  - eexists. reflexivity.
  - unfold scan_step.
    destruct (savings_ratio_total (compress_size info) (file_size info) Hc) as [ratio ->].
    simpl. apply IH.
Qed.

Lemma sums_bounded rows :
  Forall valid_member (map member_of_row rows) ->
  0 <= sum_compressed rows <= 2 ^ 64 * Z.of_nat (List.length rows) /\
  0 <= sum_uncompressed rows.
Proof.
  induction rows as [| r rest IH]; simpl map; intros H.
  - simpl. lia.
  - inversion H as [| ? ? [Hc Hu] Hrest]; subst.
    destruct (IH Hrest) as [IHc IHu].
    unfold valid_member in Hc, Hu. simpl in Hc, Hu.
    change (sum_compressed (r :: rest)) with (compressed_bytes r + sum_compressed rest).
    change (sum_uncompressed (r :: rest)) with (uncompressed_bytes r + sum_uncompressed rest).
    change (List.length (r :: rest)) with (S (List.length rest)).
    rewrite Nat2Z.inj_succ. lia.
Qed.

Lemma overall_savings_total total_c total_u :
  0 <= total_c < 2 ^ 1000 -> 0 <= total_u ->
  exists overall, overall_savings total_c total_u = inr overall.
Proof.
  intros Hc Hu. unfold overall_savings.
  destruct (Z.eqb_spec total_u 0) as [E | N]; simpl; [eexists; reflexivity |].
  destruct (truediv_total total_c total_u Hc) as [q ->]; [lia |].
  eexists. reflexivity.
Qed.

(** The scan of a well-formed archive returns, and what it returns. *)
Lemma scan_archive_total zf :
  well_formed zf ->
  exists st overall,
    scan_loop init_state (infolist zf) = inr st /\
    (forall zf', infolist zf' = infolist zf ->
       scan_archive zf' =
       inr (sort_rows (st_rows st),
            mkSummary (st_total_uncompressed st) (st_total_compressed st) overall
              (st_media_count st) (st_media_total st) (st_worksheets_total st)
              (st_sharedstrings_size st)
              (estimate_count zf' (st_sharedstrings_size st)))).
Proof.
  intros [Hvalid Hlen].
  destruct (scan_loop_total _ Hvalid init_state) as [st Hst].
  pose proof (scan_loop_post _ _ Hst) as [Hu Hc Hm _ _].
  rewrite <- Hm in Hvalid. apply sums_bounded in Hvalid.
  destruct Hvalid as [Hbc Hbu].
  assert (Hrows : List.length (st_rows st) = List.length (infolist zf))
    by (rewrite <- Hm, length_map; reflexivity).
  rewrite Hrows, Hc in Hbc. rewrite Hu in Hbu.
  destruct (overall_savings_total (st_total_compressed st) (st_total_uncompressed st))
    as [overall Hoverall]; [| exact Hbu |].
  - split; [lia |].
    apply Z.le_lt_trans with (2 ^ 64 * 2 ^ 64); [nia |].
    rewrite <- Z.pow_add_r by lia. apply Z.pow_lt_mono_r; lia.
  - exists st, overall. split; [exact Hst |].
    intros zf' Hsame. unfold scan_archive, make_summary.
    rewrite Hsame, Hst. simpl. rewrite Hoverall. reflexivity.
Qed.

Lemma count_fails o :
  stream_fails o -> count_shared_strings o = None.
Proof.
  destruct o as [| | reads]; simpl; try reflexivity.
  intros (pre & post & -> & Hpre). apply count_loop_read_error, Hpre.
Qed.

Lemma estimate_count_fails zf size :
  stream_fails (zf_open zf "xl/sharedStrings.xml") -> estimate_count zf size = None.
Proof.
  intros H. destruct size; simpl; [apply count_fails, H | reflexivity].
Qed.

(** *** The claims on the scanner *)

(** C3: for every archive the scan accepts, the uncompressed sizes of the
    returned rows add up to [total_uncompressed] of the summary, and their
    compressed sizes to [total_compressed]. *)
Theorem totals_are_row_sums fs p rows summary :
  scan_xlsx fs p = inr (rows, summary) ->
  sum_uncompressed rows = total_uncompressed summary /\
  sum_compressed rows = total_compressed summary.
Proof.
  intros H. apply scan_xlsx_inr in H.
  destruct H as (zf & st & overall & _ & Hloop & _ & -> & ->).
  apply scan_loop_post in Hloop. destruct Hloop as [Hu Hc _ _ _].
  simpl. split.
  - rewrite (sum_uncompressed_perm _ _ (sort_rows_perm (st_rows st))). exact Hu.
  - rewrite (sum_compressed_perm _ _ (sort_rows_perm (st_rows st))). exact Hc.
Qed.

Lemma totals_are_row_sums_witness :
  scan_xlsx Examples.disk "book.xlsx" =
    inr (Examples.scenario_rows, Examples.scenario_summary) /\
  sum_uncompressed Examples.scenario_rows = 11536384 /\
  sum_compressed Examples.scenario_rows = 10486294.
Proof.
  split; [vm_compute; reflexivity |].
  apply (totals_are_row_sums Examples.disk "book.xlsx" _ Examples.scenario_summary).
  vm_compute; reflexivity.
Defined.

(** C4: for every archive the scan accepts, the returned rows are in
    non-increasing order of [uncompressed_bytes], and the rows of any one
    size are the archive's members of that size in the order of the
    archive's index. *)
Theorem rows_sorted_and_stable fs p zf rows summary :
  fs p = Archive zf ->
  scan_xlsx fs p = inr (rows, summary) ->
  StronglySorted size_ge rows /\
  (forall v,
     map member_of_row (rows_of_size v rows) = members_of_size v (infolist zf)).
Proof.
  intros Hfs H. apply scan_xlsx_inr in H.
  destruct H as (zf' & st & overall & Hfs' & Hloop & _ & -> & _).
  rewrite Hfs in Hfs'. injection Hfs' as <-.
  apply scan_loop_post in Hloop. destruct Hloop as [_ _ Hm _ _].
  split.
  - apply sort_rows_sorted.
  - intros v. rewrite sort_rows_stable, members_of_rows_of_size, Hm. reflexivity.
Qed.

Lemma rows_sorted_and_stable_witness :
  scan_xlsx Examples.disk "book.xlsx" =
    inr (Examples.scenario_rows, Examples.scenario_summary) /\
  StronglySorted size_ge Examples.scenario_rows /\
  map path (rows_of_size 1024 Examples.scenario_rows) =
    ["xl/worksheets/sheet1.xml"; "xl/sharedStrings.xml"].
Proof.
  assert (Hscan : scan_xlsx Examples.disk "book.xlsx" =
                  inr (Examples.scenario_rows, Examples.scenario_summary))
    by (vm_compute; reflexivity).
  split; [exact Hscan |].
  destruct (rows_sorted_and_stable Examples.disk "book.xlsx" Examples.scenario
              _ _ eq_refl Hscan) as [Hsorted _].
  split; [exact Hsorted | reflexivity].
Defined.

(** C5: the scan never raises [ZeroDivisionError]; in what it returns, the
    savings figure of every row (the size of a member is never negative) and
    that of the grand totals is [0.0] when the uncompressed size is 0 and is
    [round((1 - compressed / uncompressed) * 100, 2)] otherwise. *)
Theorem savings_zero_guarded fs p :
  scan_xlsx fs p <> inl ZeroDivisionError /\
  (forall rows summary,
     scan_xlsx fs p = inr (rows, summary) ->
     (forall r, In r rows -> 0 <= uncompressed_bytes r ->
        savings_spec (compressed_bytes r) (uncompressed_bytes r)
          (compression_savings r)) /\
     savings_spec (total_compressed summary) (total_uncompressed summary)
       (overall_compression_savings summary)).
Proof.
  split.
  - unfold scan_xlsx, open_zip.
    destruct (os_path_exists fs p); simpl; [| discriminate].
    destruct (fs p) as [| | zf]; simpl; try discriminate.
    unfold scan_archive.
    destruct (scan_loop init_state (infolist zf)) as [e | st] eqn:Hloop; simpl.
    + intros [= ->]. exact (scan_loop_no_zero_division _ _ Hloop).
    + unfold make_summary.
      destruct (overall_savings (st_total_compressed st) (st_total_uncompressed st))
        as [e | overall] eqn:Hoverall; simpl; [| discriminate].
      intros [= ->]. exact (overall_savings_no_zero_division _ _ Hoverall).
  - intros rows summary H. apply scan_xlsx_inr in H.
    destruct H as (zf & st & overall & _ & Hloop & Hoverall & -> & ->).
    apply scan_loop_post in Hloop. destruct Hloop as [_ _ _ Hs _].
    split.
    + intros r Hr. rewrite Forall_forall in Hs. apply (Hs r).
      apply (Permutation_in _ (sort_rows_perm (st_rows st))), Hr.
    + simpl. apply overall_savings_spec, Hoverall.
Qed.

Lemma savings_zero_guarded_witness :
  scan_xlsx Examples.disk "book.xlsx" =
    inr (Examples.scenario_rows, Examples.scenario_summary) /\
  Forall row_savings_ok Examples.scenario_rows /\
  compression_savings Examples.empty_row = 0%float.
Proof.
  assert (Hscan : scan_xlsx Examples.disk "book.xlsx" =
                  inr (Examples.scenario_rows, Examples.scenario_summary))
    by (vm_compute; reflexivity).
  split; [exact Hscan |].
  destruct (proj2 (savings_zero_guarded Examples.disk "book.xlsx") _ _ Hscan)
    as [Hrows _].
  split; [apply Forall_forall; intros r Hr; exact (Hrows r Hr) | reflexivity].
Defined.

(** C6: for a path that refers to no existing file, [scan_xlsx] raises
    [FileNotFoundError]: it returns no rows and no summary. *)
Theorem missing_path_raises fs p :
  os_path_exists fs p = false ->
  scan_xlsx fs p = inl (FileNotFoundError p) /\
  (forall rows summary, scan_xlsx fs p <> inr (rows, summary)).
Proof.
  intros H. unfold scan_xlsx. rewrite H. simpl.
  split; [reflexivity | discriminate].
Qed.

Lemma missing_path_raises_witness :
  os_path_exists Examples.disk "missing.xlsx" = false /\
  scan_xlsx Examples.disk "missing.xlsx" = inl (FileNotFoundError "missing.xlsx").
Proof.
  split; [reflexivity |].
  apply (missing_path_raises Examples.disk "missing.xlsx"). reflexivity.
Defined.

(** C7: in a well-formed archive, when the shared-strings part cannot be
    read to its end the scan still returns rows and a summary, with
    [sharedStrings_est_count] absent, and they are those of the archive whose
    part reads well, but for that count; when the archive has no
    shared-strings member the scan returns with both shared-strings fields
    absent. *)
Theorem shared_strings_failure_is_local fs p zf :
  fs p = Archive zf ->
  well_formed zf ->
  (stream_fails (zf_open zf "xl/sharedStrings.xml") ->
   exists rows summary,
     scan_xlsx fs p = inr (rows, summary) /\
     sharedStrings_est_count summary = None /\
     (forall zf', infolist zf' = infolist zf ->
        exists c, scan_archive zf' = inr (rows, with_est_count c summary))) /\
  (~ has_member "xl/sharedStrings.xml" zf ->
   exists rows summary,
     scan_xlsx fs p = inr (rows, summary) /\
     sharedStrings_uncompressed summary = None /\
     sharedStrings_est_count summary = None).
Proof.
  intros Hfs Hwf. rewrite (scan_xlsx_archive _ _ _ Hfs).
  destruct (scan_archive_total zf Hwf) as (st & overall & Hloop & Hscan).
  split.
  - intros Hfail. eexists. eexists.
    split; [apply Hscan; reflexivity |].
    split; [simpl; apply estimate_count_fails, Hfail |].
    intros zf' Hsame. eexists. rewrite (Hscan zf' Hsame). reflexivity.
  - intros Hno. eexists. eexists.
    split; [apply Hscan; reflexivity |].
    apply scan_loop_post in Hloop. destruct Hloop as [_ _ _ _ Hsh].
    assert (Hnone : st_sharedstrings_size st = None).
    { apply Hsh. intros info Hin Hname. apply Hno. exists info. split; assumption. }
    simpl. rewrite Hnone. split; reflexivity.
Qed.

Lemma shared_strings_failure_is_local_witness :
  Examples.disk "damaged.xlsx" = Archive Examples.damaged /\
  well_formed Examples.damaged /\
  stream_fails (zf_open Examples.damaged "xl/sharedStrings.xml") /\
  exists rows summary,
    scan_xlsx Examples.disk "damaged.xlsx" = inr (rows, summary) /\
    sharedStrings_est_count summary = None /\
    (forall zf', infolist zf' = infolist Examples.damaged ->
       exists c, scan_archive zf' = inr (rows, with_est_count c summary)).
Proof.
  split; [reflexivity |].
  assert (Hwf : well_formed Examples.damaged).
  { split; [repeat constructor; simpl; lia | simpl; lia]. }
  assert (Hfail : stream_fails (zf_open Examples.damaged "xl/sharedStrings.xml")).
  { exists [Chunk Examples.two_entries], [Chunk Examples.two_entries].
    split; [reflexivity | repeat constructor]. }
  split; [exact Hwf |]. split; [exact Hfail |].
  exact (proj1 (shared_strings_failure_is_local Examples.disk "damaged.xlsx"
                  Examples.damaged eq_refl Hwf) Hfail).
Defined.

(** An archive without a shared-strings member: both fields are absent. *)
Example no_shared_strings_member :
  ~ has_member "xl/sharedStrings.xml" Examples.without_shared_strings /\
  exists rows summary,
    scan_xlsx Examples.disk "plain.xlsx" = inr (rows, summary) /\
    sharedStrings_uncompressed summary = None /\
    sharedStrings_est_count summary = None.
Proof.
  split.
  - intros (info & [<- | [<- | []]] & Hname); discriminate Hname.
  - eexists. eexists. split; [vm_compute; reflexivity | split; reflexivity].
Qed.

(** C10: the scan of an archive without members returns: no rows, totals of
    0, overall savings of [0.0], a media count and media and worksheet totals
    of 0, and both shared-strings fields absent. *)
Theorem empty_archive_scans fs p zf :
  fs p = Archive zf ->
  infolist zf = [] ->
  scan_xlsx fs p = inr ([], mkSummary 0 0 0%float 0 0 0 None None).
Proof.
  intros Hfs Hnil. rewrite (scan_xlsx_archive _ _ _ Hfs).
  unfold scan_archive. rewrite Hnil. reflexivity.
Qed.

Lemma empty_archive_scans_witness :
  Examples.disk "empty.xlsx" = Archive Examples.empty_archive /\
  scan_xlsx Examples.disk "empty.xlsx" =
    inr ([], mkSummary 0 0 0%float 0 0 0 None None).
Proof.
  split; [reflexivity |].
  apply (empty_archive_scans Examples.disk "empty.xlsx" Examples.empty_archive);
    reflexivity.
Defined.

End ScanFacts.

(** * Further properties *)

(** ** The estimate on parts that read well *)

Section MarkerCountFacts.

Import SharedStrings MarkerCount.

Lemma last_bytes_all n (buf : bytes) :
  (List.length buf <= n)%nat -> last_bytes n buf = buf.
Proof.
  intros H. unfold last_bytes.
  replace (List.length buf - n)%nat with 0%nat by lia. reflexivity.
Qed.

Lemma last_bytes_length n (buf : bytes) :
  List.length (last_bytes n buf) = Nat.min n (List.length buf).
Proof.
  unfold last_bytes. rewrite length_skipn. lia.
Qed.

(** The last bytes of a buffer are those of any long enough end of it. *)
Lemma last_bytes_app_r m (p q : bytes) :
  (m <= List.length q)%nat -> last_bytes m (p ++ q) = last_bytes m q.
Proof.
  intros H. unfold last_bytes. rewrite length_app, skipn_app.
  replace (List.length p + List.length q - m - List.length p)%nat
    with (List.length q - m)%nat by lia.
  rewrite skipn_all2 by lia. reflexivity.
Qed.

Lemma last_bytes_split n (buf : bytes) :
  buf = firstn (List.length buf - n) buf ++ last_bytes n buf.
Proof.
  unfold last_bytes. symmetry. apply firstn_skipn.
Qed.

(** Keeping the last [n] bytes of a buffer loses none of the last [m] bytes
    of what follows, for [m <= n]. *)
Lemma last_bytes_carry m n (buf chunk : bytes) :
  (m <= n)%nat ->
  last_bytes m (last_bytes n buf ++ chunk) = last_bytes m (buf ++ chunk).
Proof.
  intros Hmn.
  destruct (Nat.le_gt_cases (List.length buf) n) as [Hshort | Hlong].
  - rewrite (last_bytes_all n buf Hshort). reflexivity.
  - rewrite (last_bytes_split n buf) at 2. rewrite <- app_assoc.
    symmetry. apply last_bytes_app_r.
    rewrite length_app, last_bytes_length. lia.
Qed.

Lemma last_bytes_twice m n (buf : bytes) :
  (m <= n)%nat -> last_bytes m (last_bytes n buf) = last_bytes m buf.
Proof.
  intros H. pose proof (last_bytes_carry m n buf [] H) as E.
  rewrite !app_nil_r in E. exact E.
Qed.

(** The marker does not overlap itself: behind an occurrence the next two
    positions start none. *)
Lemma occurrences_behind_marker x tl :
  starts_with marker (x :: tl) = true ->
  occurrences tl = occurrences (skipn 2 tl).
Proof.
  destruct tl as [| y [| z rest]]; simpl; try (rewrite ?andb_false_r; discriminate).
  intros H. apply andb_prop in H. destruct H as [_ H].
  apply andb_prop in H. destruct H as [Hy H].
  apply andb_prop in H. destruct H as [Hz _].
  apply Byte.byte_dec_bl in Hy, Hz. subst y z. simpl.
  destruct rest as [| w rest]; simpl; lia.
Qed.

Lemma count_scan_occurrences buf :
  forall skip, count_scan marker skip buf = occurrences (skipn skip buf).
Proof.
  induction buf as [| x tl IH]; intros skip.
  - destruct skip; reflexivity.
  - destruct skip as [| k].
    + cbn [count_scan skipn occurrences].
      destruct (starts_with marker (x :: tl)) eqn:E.
      * change (Nat.pred (List.length marker)) with 2%nat.
        rewrite IH, <- (occurrences_behind_marker x tl E). reflexivity.
      * rewrite IH. reflexivity.
    + cbn [count_scan skipn]. apply IH.
Qed.

(** [bytes.count] of the marker is the number of positions where it starts. *)
Lemma bytes_count_occurrences buf :
  bytes_count marker buf = occurrences buf.
Proof.
  unfold bytes_count, marker. fold marker. apply (count_scan_occurrences buf 0%nat).
Qed.

Lemma starts_with_marker_app x y z (rest b : bytes) :
  starts_with marker ((x :: y :: z :: rest) ++ b) = starts_with marker (x :: y :: z :: rest).
Proof. reflexivity. Qed.

Lemma starts_with_too_short (buf : bytes) :
  (List.length buf < 3)%nat -> starts_with marker buf = false.
Proof.
  destruct buf as [| x [| y [| z rest]]]; simpl; intros H;
    rewrite ?andb_false_r; try reflexivity. lia.
Qed.

Lemma occurrences_too_short (buf : bytes) :
  (List.length buf < 3)%nat -> occurrences buf = 0.
Proof.
  induction buf as [| x tl IH]; [reflexivity |]. intros H.
  cbn [occurrences]. rewrite (starts_with_too_short (x :: tl) H).
  rewrite IH by (simpl in H; lia). reflexivity.
Qed.

(** The occurrences of [a ++ b] are those of [a] and those that start in
    the last two bytes of [a] or behind. *)
Lemma occurrences_app (a b : bytes) :
  occurrences (a ++ b) = occurrences a + occurrences (last_bytes 2 a ++ b).
Proof.
  induction a as [| x a IH]; [reflexivity |].
  destruct a as [| y [| z rest]].
  - change (last_bytes 2 [x]) with [x].
    rewrite (occurrences_too_short [x]) by (simpl; lia). reflexivity.
  - change (last_bytes 2 [x; y]) with [x; y].
    rewrite (occurrences_too_short [x; y]) by (simpl; lia). reflexivity.
  - change (occurrences ((x :: y :: z :: rest) ++ b))
      with ((if starts_with marker ((x :: y :: z :: rest) ++ b) then 1 else 0)
            + occurrences ((y :: z :: rest) ++ b)).
    change (occurrences (x :: y :: z :: rest))
      with ((if starts_with marker (x :: y :: z :: rest) then 1 else 0)
            + occurrences (y :: z :: rest)).
    rewrite starts_with_marker_app, IH.
    replace (last_bytes 2 (x :: y :: z :: rest)) with (last_bytes 2 (y :: z :: rest)).
    + lia.
    + unfold last_bytes. simpl List.length.
      replace (S (S (S (List.length rest))) - 2)%nat with (S (List.length rest)) by lia.
      replace (S (S (List.length rest)) - 2)%nat with (List.length rest) by lia.
      reflexivity.
Qed.

(** A buffer of at most three bytes holds the marker once or not at all. *)
Lemma occurrences_short (buf : bytes) :
  (List.length buf <= 3)%nat ->
  occurrences buf = if starts_with marker buf then 1 else 0.
Proof.
  destruct buf as [| x tl]; [reflexivity |]. intros H.
  cbn [occurrences]. rewrite (occurrences_too_short tl) by (simpl in H; lia). lia.
Qed.

Lemma occurrences_last3 (buf : bytes) :
  occurrences (last_bytes 3 buf) = if ends_with_marker buf then 1 else 0.
Proof.
  unfold ends_with_marker. apply occurrences_short.
  rewrite last_bytes_length. lia.
Qed.

(** What one pass of the loop adds to the count. *)
Lemma pass_adds (sofar chunk : bytes) :
  bytes_count marker (last_bytes 3 sofar ++ chunk) =
  (if ends_with_marker sofar then 1 else 0)
  + occurrences (last_bytes 2 sofar ++ chunk).
Proof.
  rewrite bytes_count_occurrences, occurrences_app, occurrences_last3.
  rewrite last_bytes_twice by lia. reflexivity.
Qed.

Lemma count_loop_chunks chunks :
  Forall (fun c => c <> []) chunks ->
  forall count sofar,
    count_loop (map Chunk chunks) count (last_bytes 3 sofar) =
    Some (count + occurrences (last_bytes 2 sofar ++ List.concat chunks)
          + recounted sofar chunks).
Proof.
  induction 1 as [| chunk rest Hne _ IH]; intros count sofar.
  - cbn [map count_loop List.concat recounted]. rewrite app_nil_r.
    rewrite occurrences_too_short by (rewrite last_bytes_length; lia).
    f_equal. lia.
  - destruct chunk as [| b chunk]; [contradiction |].
    cbn [map count_loop].
    rewrite last_bytes_carry by lia.
    rewrite IH, pass_adds. cbn [List.concat recounted].
    rewrite (app_assoc (last_bytes 2 sofar) (b :: chunk) (List.concat rest)).
    rewrite (occurrences_app (last_bytes 2 sofar ++ b :: chunk) (List.concat rest)).
    rewrite (last_bytes_carry 2 2 sofar (b :: chunk)) by lia.
    f_equal. lia.
Qed.


Lemma recounted_bounds chunks :
  forall sofar, 0 <= recounted sofar chunks <= Z.of_nat (List.length chunks).
Proof.
  induction chunks as [| c rest IH]; intros sofar; cbn [recounted List.length].
  - lia.
  - specialize (IH (sofar ++ c)). rewrite Nat2Z.inj_succ.
    destruct (ends_with_marker sofar); lia.
Qed.

(** No read starts behind a marker before the first one. *)
Lemma recounted_first chunks :
  0 <= recounted [] chunks <= Z.of_nat (List.length chunks - 1).
Proof.
  destruct chunks as [| c rest]; [simpl; lia |].
  cbn [recounted]. change (ends_with_marker []) with false.
  pose proof (recounted_bounds rest ([] ++ c)).
  replace (List.length (c :: rest) - 1)%nat with (List.length rest)
    by (simpl; lia).
  lia.
Qed.

Lemma count_chunks chunks :
  Forall (fun c => c <> []) chunks ->
  count_shared_strings (Opened (map Chunk chunks)) =
  Some (bytes_count marker (List.concat chunks) + recounted [] chunks).
Proof.
  intros H. unfold count_shared_strings.
  change (@nil byte) with (last_bytes 3 []) at 1.
  rewrite (count_loop_chunks chunks H 0 []).
  rewrite bytes_count_occurrences. reflexivity.
Qed.

(** What [read_chunks] delivers: the data, in non-empty chunks, with no more
    boundaries than whole chunks fit before the last byte. *)
Lemma read_chunks_fuel_spec n :
  (0 < n)%nat ->
  forall fuel data,
    (List.length data <= fuel)%nat ->
    exists chunks,
      read_chunks_fuel fuel n data = map Chunk chunks /\
      List.concat chunks = data /\
      Forall (fun c => c <> []) chunks /\
      (n * (List.length chunks - 1) <= List.length data - 1)%nat.
Proof.
  intros Hn. induction fuel as [| fuel IH]; intros data Hlen.
  - destruct data; [| simpl in Hlen; lia].
    exists []. split; [reflexivity |]. split; [reflexivity |].
    split; [constructor | simpl; lia].
  - destruct data as [| x tl].
    + exists []. split; [reflexivity |]. split; [reflexivity |].
      split; [constructor | simpl; lia].
    + cbn [read_chunks_fuel].
      destruct (IH (skipn n (x :: tl))) as (chunks & Hreads & Hcat & Hne & Hnum).
      { rewrite length_skipn. cbn [List.length] in Hlen |- *. lia. }
      exists (firstn n (x :: tl) :: chunks). rewrite Hreads.
      split; [reflexivity |]. split; [| split].
      * cbn [List.concat]. rewrite Hcat. apply firstn_skipn.
      * constructor; [| exact Hne].
        destruct n; [lia | discriminate].
      * assert (Hrest : List.length (skipn n (x :: tl)) = (List.length (x :: tl) - n)%nat)
          by apply length_skipn.
        destruct chunks as [| c rest]; [simpl; lia |].
        assert (Hpos : (0 < List.length (skipn n (x :: tl)))%nat).
        { rewrite <- Hcat. inversion Hne as [| ? ? Hc _]; subst.
          destruct c; [contradiction |]. cbn [List.concat].
          rewrite length_app. simpl. lia. }
        cbn [List.length] in *. nia.
Qed.

Lemma read_chunks_estimate data :
  exists est,
    count_shared_strings (Opened (read_chunks chunk_size data)) = Some est /\
    bytes_count marker data <= est <=
      bytes_count marker data + Z.of_nat ((List.length data - 1) / chunk_size).
Proof.
  assert (Hn : (0 < chunk_size)%nat) by (unfold chunk_size; lia).
  destruct (read_chunks_fuel_spec chunk_size Hn (List.length data) data (Nat.le_refl _))
    as (chunks & Hreads & Hcat & Hne & Hnum).
  unfold read_chunks. rewrite Hreads, (count_chunks chunks Hne), Hcat.
  eexists. split; [reflexivity |].
  pose proof (recounted_first chunks) as Hrec.
  assert (Hq : (List.length chunks - 1 <= (List.length data - 1) / chunk_size)%nat)
    by (apply Nat.div_le_lower_bound; lia).
  lia.
Qed.

End MarkerCountFacts.

Section CountExtras.

Import SharedStrings MarkerCount.

(** X1: when every read succeeds with a non-empty chunk, the estimate is
    the number of markers in the data plus the number of reads that start
    right behind a marker. *)
Theorem estimate_is_count_plus_recounted chunks :
  Forall (fun c => c <> []) chunks ->
  count_shared_strings (Opened (map Chunk chunks)) =
  Some (bytes_count marker (List.concat chunks) + recounted [] chunks).
Proof.
  apply count_chunks.
Qed.

Lemma estimate_is_count_plus_recounted_witness :
  Forall (fun c : bytes => c <> []) [firstn 3 fixture; skipn 3 fixture] /\
  count_shared_strings (Opened [Chunk (firstn 3 fixture); Chunk (skipn 3 fixture)]) =
  Some (3 + 1).
Proof.
  assert (H : Forall (fun c : bytes => c <> []) [firstn 3 fixture; skipn 3 fixture])
    by (repeat constructor; discriminate).
  split; [exact H |].
  exact (estimate_is_count_plus_recounted _ H).
Defined.

(** X2: for a part that is read without failure, 65536 bytes at a time,
    the estimate is never below the number of markers in the part, and
    exceeds it by at most the number of read boundaries inside the part. *)
Theorem estimate_never_undercounts data :
  exists est,
    count_shared_strings (Opened (read_chunks chunk_size data)) = Some est /\
    bytes_count marker data <= est <=
      bytes_count marker data + Z.of_nat ((List.length data - 1) / chunk_size).
Proof.
  apply read_chunks_estimate.
Qed.

(** X3: for a part of at most 65536 bytes that is read without failure the
    estimate is the number of markers in it; for the empty part it is 0. *)
Theorem estimate_exact_for_one_read data :
  (List.length data <= chunk_size)%nat ->
  count_shared_strings (Opened (read_chunks chunk_size data)) =
  Some (bytes_count marker data).
Proof.
  intros Hlen.
  destruct (read_chunks_estimate data) as (est & Hest & Hlo & Hhi).
  rewrite Hest. f_equal.
  assert (Hq : ((List.length data - 1) / chunk_size = 0)%nat).
  { assert (Hn : (0 < chunk_size)%nat) by (unfold chunk_size; lia).
    apply Nat.div_small. lia. }
  rewrite Hq in Hhi. lia.
Qed.

Lemma estimate_exact_for_one_read_witness :
  (List.length Examples.two_entries <= chunk_size)%nat /\
  count_shared_strings (Opened (read_chunks chunk_size Examples.two_entries)) = Some 2.
Proof.
  assert (H : (List.length Examples.two_entries <= chunk_size)%nat)
    by (unfold chunk_size; simpl; lia).
  split; [exact H |].
  exact (estimate_exact_for_one_read Examples.two_entries H).
Defined.

End CountExtras.

(** ** The summary, member by member *)

Section AggregateFacts.

Import SharedStrings Scanner Aggregates.

Lemma total_file_size_app a b :
  total_file_size (a ++ b) = total_file_size a + total_file_size b.
Proof.
  induction a as [| i a IH]; simpl; lia.
Qed.

Lemma total_compress_size_app a b :
  total_compress_size (a ++ b) = total_compress_size a + total_compress_size b.
Proof.
  induction a as [| i a IH]; simpl; lia.
Qed.

Lemma last_shared_strings_size_snoc done info :
  last_shared_strings_size (done ++ [info]) =
  if is_shared_strings info then Some (file_size info)
  else last_shared_strings_size done.
Proof.
  unfold last_shared_strings_size. rewrite rev_app_distr. simpl.
  destruct (is_shared_strings info); reflexivity.
Qed.

(** What one pass of the loop body does to the counters. *)
Lemma scan_step_counters st info st' :
  scan_step st info = inr st' ->
  st_total_uncompressed st' = st_total_uncompressed st + file_size info /\
  st_total_compressed st' = st_total_compressed st + compress_size info /\
  st_media_count st' =
    (if is_media info then st_media_count st + 1 else st_media_count st) /\
  st_media_total st' =
    (if is_media info then st_media_total st + file_size info else st_media_total st) /\
  st_worksheets_total st' =
    (if is_worksheet info then st_worksheets_total st + file_size info
     else st_worksheets_total st) /\
  st_sharedstrings_size st' =
    (if is_shared_strings info then Some (file_size info)
     else st_sharedstrings_size st).
Proof.
  unfold scan_step.
  destruct (savings_ratio (compress_size info) (file_size info)) as [e | ratio];
    simpl; [discriminate |].
  intros [= <-]. simpl. repeat split; reflexivity.
Qed.

Lemma loop_aggregates_init : loop_aggregates init_state [].
Proof. constructor; reflexivity. Qed.

Lemma loop_aggregates_step st done info st' :
  loop_aggregates st done -> scan_step st info = inr st' ->
  loop_aggregates st' (done ++ [info]).
Proof.
  intros [Hu Hc Hmc Hmt Hw Hs] Hstep.
  apply scan_step_counters in Hstep.
  destruct Hstep as (Eu & Ec & Emc & Emt & Ew & Es).
  constructor.
  - rewrite Eu, Hu, total_file_size_app. simpl. lia.
  - rewrite Ec, Hc, total_compress_size_app. simpl. lia.
  - rewrite Emc, Hmc, filter_app, length_app. simpl.
    destruct (is_media info); simpl; lia.
  - rewrite Emt, Hmt, filter_app, total_file_size_app. simpl.
    destruct (is_media info); simpl; lia.
  - rewrite Ew, Hw, filter_app, total_file_size_app. simpl.
    destruct (is_worksheet info); simpl; lia.
  - rewrite Es, Hs, last_shared_strings_size_snoc. reflexivity.
Qed.

Lemma scan_loop_aggregates infos st :
  scan_loop init_state infos = inr st -> loop_aggregates st infos.
Proof.
  intros H.
  apply (scan_loop_invariant loop_aggregates loop_aggregates_step
           infos init_state [] st loop_aggregates_init H).
Qed.

(** A successful scan of an archive, taken apart. *)
Lemma scan_archive_inr fs p zf rows summary :
  fs p = Archive zf ->
  scan_xlsx fs p = inr (rows, summary) ->
  exists st overall,
    scan_loop init_state (infolist zf) = inr st /\
    overall_savings (st_total_compressed st) (st_total_uncompressed st) = inr overall /\
    rows = sort_rows (st_rows st) /\
    summary =
      mkSummary (st_total_uncompressed st) (st_total_compressed st) overall
        (st_media_count st) (st_media_total st) (st_worksheets_total st)
        (st_sharedstrings_size st)
        (estimate_count zf (st_sharedstrings_size st)).
Proof.
  intros Hfs H. apply scan_xlsx_inr in H.
  destruct H as (zf' & st & overall & Hfs' & Hloop & Hoverall & Hrows & Hsum).
  rewrite Hfs in Hfs'. injection Hfs' as <-.
  exists st, overall. repeat split; assumption.
Qed.

Lemma last_shared_strings_size_none infos :
  last_shared_strings_size infos = None <->
  forall info, In info infos -> filename info <> "xl/sharedStrings.xml".
Proof.
  unfold last_shared_strings_size. split.
  - intros H info Hin Hname.
    destruct (find is_shared_strings (rev infos)) as [i |] eqn:E; [discriminate |].
    assert (Hin' : In info (rev infos)) by (rewrite <- in_rev; exact Hin).
    pose proof (find_none _ _ E info Hin') as Hf.
    unfold is_shared_strings in Hf. rewrite Hname in Hf. discriminate Hf.
  - intros H.
    destruct (find is_shared_strings (rev infos)) as [i |] eqn:E; [| reflexivity].
    apply find_some in E. destruct E as [Hin Hi].
    rewrite <- in_rev in Hin. exfalso. apply (H i Hin).
    unfold is_shared_strings in Hi. apply String.eqb_eq in Hi. exact Hi.
Qed.

(** X4: in what the scan returns, the totals are the sums of the sizes of
    all members, [media_count] and [media_uncompressed_total] the number and
    the total size of the members under [xl/media/], and
    [worksheets_uncompressed_total] the total size of those under
    [xl/worksheets/]. *)
Theorem summary_aggregates fs p zf rows summary :
  fs p = Archive zf ->
  scan_xlsx fs p = inr (rows, summary) ->
  total_uncompressed summary = total_file_size (infolist zf) /\
  total_compressed summary = total_compress_size (infolist zf) /\
  media_count summary = Z.of_nat (List.length (filter is_media (infolist zf))) /\
  media_uncompressed_total summary = total_file_size (filter is_media (infolist zf)) /\
  worksheets_uncompressed_total summary =
    total_file_size (filter is_worksheet (infolist zf)).
Proof.
  intros Hfs H.
  destruct (scan_archive_inr _ _ _ _ _ Hfs H) as (st & overall & Hloop & _ & _ & ->).
  apply scan_loop_aggregates in Hloop. destruct Hloop as [Hu Hc Hmc Hmt Hw _].
  simpl. repeat split; assumption.
Qed.

Lemma summary_aggregates_witness :
  scan_xlsx Examples.disk "book.xlsx" =
    inr (Examples.scenario_rows, Examples.scenario_summary) /\
  media_count Examples.scenario_summary = 1 /\
  media_uncompressed_total Examples.scenario_summary = 11534336 /\
  worksheets_uncompressed_total Examples.scenario_summary = 1024.
Proof.
  assert (Hscan : scan_xlsx Examples.disk "book.xlsx" =
                  inr (Examples.scenario_rows, Examples.scenario_summary))
    by (vm_compute; reflexivity).
  split; [exact Hscan |].
  destruct (summary_aggregates Examples.disk "book.xlsx" Examples.scenario
              _ _ eq_refl Hscan) as (_ & _ & Hmc & Hmt & Hw).
  split; [exact Hmc |]. split; [exact Hmt | exact Hw].
Defined.

(** X5: [sharedStrings_uncompressed] is the size of the last member of the
    index named [xl/sharedStrings.xml]; it is absent exactly when the archive
    has no such member. *)
Theorem shared_strings_size_is_last_member fs p zf rows summary :
  fs p = Archive zf ->
  scan_xlsx fs p = inr (rows, summary) ->
  sharedStrings_uncompressed summary = last_shared_strings_size (infolist zf) /\
  (sharedStrings_uncompressed summary = None <->
   ~ has_member "xl/sharedStrings.xml" zf).
Proof.
  intros Hfs H.
  destruct (scan_archive_inr _ _ _ _ _ Hfs H) as (st & overall & Hloop & _ & _ & ->).
  apply scan_loop_aggregates in Hloop. destruct Hloop as [_ _ _ _ _ Hs].
  simpl. split; [exact Hs |].
  rewrite Hs, last_shared_strings_size_none. unfold has_member. split.
  - intros Hno (info & Hin & Hname). exact (Hno info Hin Hname).
  - intros Hno info Hin Hname. apply Hno. exists info. split; assumption.
Qed.

Lemma shared_strings_size_is_last_member_witness :
  scan_xlsx Examples.disk "book.xlsx" =
    inr (Examples.scenario_rows, Examples.scenario_summary) /\
  sharedStrings_uncompressed Examples.scenario_summary = Some 1024.
Proof.
  assert (Hscan : scan_xlsx Examples.disk "book.xlsx" =
                  inr (Examples.scenario_rows, Examples.scenario_summary))
    by (vm_compute; reflexivity).
  split; [exact Hscan |].
  exact (proj1 (shared_strings_size_is_last_member Examples.disk "book.xlsx"
                  Examples.scenario _ _ eq_refl Hscan)).
Defined.

(** X6: the returned rows are the members of the archive, one row for each
    member, with its name and its two sizes: as members they are a
    permutation of the index. *)
Theorem rows_are_the_members fs p zf rows summary :
  fs p = Archive zf ->
  scan_xlsx fs p = inr (rows, summary) ->
  Permutation (map member_of_row rows) (infolist zf) /\
  List.length rows = List.length (infolist zf).
Proof.
  intros Hfs H.
  destruct (scan_archive_inr _ _ _ _ _ Hfs H) as (st & overall & Hloop & _ & -> & _).
  apply scan_loop_post in Hloop. destruct Hloop as [_ _ Hm _ _].
  assert (Hperm : Permutation (map member_of_row (sort_rows (st_rows st))) (infolist zf)).
  { rewrite <- Hm. apply Permutation_map, sort_rows_perm. }
  split; [exact Hperm |].
  rewrite <- (length_map member_of_row). apply Permutation_length, Hperm.
Qed.

Lemma rows_are_the_members_witness :
  scan_xlsx Examples.disk "book.xlsx" =
    inr (Examples.scenario_rows, Examples.scenario_summary) /\
  Permutation (map member_of_row Examples.scenario_rows)
    (infolist Examples.scenario).
Proof.
  assert (Hscan : scan_xlsx Examples.disk "book.xlsx" =
                  inr (Examples.scenario_rows, Examples.scenario_summary))
    by (vm_compute; reflexivity).
  split; [exact Hscan |].
  exact (proj1 (rows_are_the_members Examples.disk "book.xlsx"
                  Examples.scenario _ _ eq_refl Hscan)).
Defined.

(** X7: the scan of a well-formed archive (sizes and number of members
    within 64 bits) raises nothing: it returns rows and a summary. *)
Theorem well_formed_archive_scans fs p zf :
  fs p = Archive zf ->
  well_formed zf ->
  exists rows summary, scan_xlsx fs p = inr (rows, summary).
Proof.
  intros Hfs Hwf. rewrite (scan_xlsx_archive _ _ _ Hfs).
  destruct (scan_archive_total zf Hwf) as (st & overall & _ & Hscan).
  eexists. eexists. apply Hscan. reflexivity.
Qed.

Lemma well_formed_archive_scans_witness :
  well_formed Examples.scenario /\
  exists rows summary, scan_xlsx Examples.disk "book.xlsx" = inr (rows, summary).
Proof.
  assert (Hwf : well_formed Examples.scenario).
  { split; [repeat constructor; simpl; lia | simpl; lia]. }
  split; [exact Hwf |].
  exact (well_formed_archive_scans Examples.disk "book.xlsx" Examples.scenario
           eq_refl Hwf).
Defined.

(** X8: when the archive has a shared-strings member and that part is read
    without failure, the summary holds an estimate; it is never below the
    number of markers in the part and exceeds it by at most the number of
    read boundaries inside the part. *)
Theorem summary_estimate_bounds fs p zf rows summary data :
  fs p = Archive zf ->
  scan_xlsx fs p = inr (rows, summary) ->
  has_member "xl/sharedStrings.xml" zf ->
  zf_open zf "xl/sharedStrings.xml" = Opened (read_chunks chunk_size data) ->
  exists est,
    sharedStrings_est_count summary = Some est /\
    bytes_count marker data <= est <=
      bytes_count marker data + Z.of_nat ((List.length data - 1) / chunk_size).
Proof.
  intros Hfs H Hmem Hopen.
  destruct (scan_archive_inr _ _ _ _ _ Hfs H) as (st & overall & Hloop & _ & _ & ->).
  apply scan_loop_aggregates in Hloop. destruct Hloop as [_ _ _ _ _ Hs].
  cbn [sharedStrings_est_count].
  destruct (st_sharedstrings_size st) as [size |] eqn:E.
  - cbn [estimate_count]. rewrite Hopen. apply read_chunks_estimate.
  - exfalso. symmetry in Hs. rewrite last_shared_strings_size_none in Hs.
    destruct Hmem as (info & Hin & Hname). exact (Hs info Hin Hname).
Qed.

Lemma summary_estimate_bounds_witness :
  scan_xlsx Examples.disk "book.xlsx" =
    inr (Examples.scenario_rows, Examples.scenario_summary) /\
  exists est,
    sharedStrings_est_count Examples.scenario_summary = Some est /\
    bytes_count marker Examples.two_entries <= est <=
      bytes_count marker Examples.two_entries
      + Z.of_nat ((List.length Examples.two_entries - 1) / chunk_size).
Proof.
  assert (Hscan : scan_xlsx Examples.disk "book.xlsx" =
                  inr (Examples.scenario_rows, Examples.scenario_summary))
    by (vm_compute; reflexivity).
  split; [exact Hscan |].
  assert (Hmem : has_member "xl/sharedStrings.xml" Examples.scenario).
  { exists (mkZipInfo "xl/sharedStrings.xml" 20 1024).
    split; [right; right; left; reflexivity | reflexivity]. }
  assert (Hopen : zf_open Examples.scenario "xl/sharedStrings.xml" =
                  Opened (read_chunks chunk_size Examples.two_entries)).
  { unfold Examples.scenario. cbn [zf_open]. rewrite String.eqb_refl. reflexivity. }
  exact (summary_estimate_bounds Examples.disk "book.xlsx" Examples.scenario
           _ _ Examples.two_entries eq_refl Hscan Hmem Hopen).
Defined.

End AggregateFacts.

(** ** The rules of the advisor *)

Section AdvisorRules.

Import Advisor.

Lemma in_append_fallback x tips :
  In x (append_fallback tips) <-> In x tips \/ (tips = [] /\ x = fallback_tip).
Proof.
  destruct tips as [| t ts]; simpl.
  - split; [intros [<- | []]; right; split; reflexivity | intros [[] | [_ ->]]; left; reflexivity].
  - split; [intros H; left; exact H | intros [H | [H _]]; [exact H | discriminate H]].
Qed.

Lemma in_append_largest x top_paths tips :
  In x (append_largest top_paths tips) <->
  In x tips \/ exists r rest, top_paths = r :: rest /\ x = largest_tip (path r).
Proof.
  destruct top_paths as [| r rest]; simpl.
  - split; [intros H; left; exact H | intros [H | (r & rest & H & _)]; [exact H | discriminate H]].
  - rewrite in_app_iff. simpl. split.
    + intros [H | [<- | []]]; [left; exact H | right; exists r, rest; split; reflexivity].
    + intros [H | (r' & rest' & [= <- <-] & ->)]; [left; exact H | right; left; reflexivity].
Qed.

Lemma in_append_if_iff c y tips x :
  In x (append_if c y tips) <-> In x tips \/ (c = true /\ x = y).
Proof.
  destruct c; simpl.
  - rewrite in_app_iff. simpl. split.
    + intros [H | [<- | []]]; [left; exact H | right; split; reflexivity].
    + intros [H | [_ ->]]; [left; exact H | right; left; reflexivity].
  - split; [intros H; left; exact H | intros [H | [H _]]; [exact H | discriminate H]].
Qed.

(** Which suggestions a summary and a list of rows give. *)
Lemma in_suggest_actions x s top_paths :
  In x (suggest_actions s top_paths) <->
  (media_fires s = true /\ x = media_tip) \/
  (shared_strings_fires s = true /\ x = shared_strings_tip) \/
  (worksheets_fires s = true /\ x = worksheets_tip) \/
  (exists r rest, top_paths = r :: rest /\ x = largest_tip (path r)) \/
  (append_largest top_paths (threshold_tips s) = [] /\ x = fallback_tip).
Proof.
  unfold suggest_actions.
  rewrite in_append_fallback, in_append_largest.
  unfold threshold_tips. rewrite !in_append_if_iff. simpl. tauto.
Qed.

Lemma in_media_tip s top_paths :
  In media_tip (suggest_actions s top_paths) <-> media_fires s = true.
Proof.
  rewrite in_suggest_actions. split.
  - intros [[H _] | [[_ H] | [[_ H] | [(r & rest & _ & H) | [_ H]]]]];
      try discriminate H; exact H.
  - intros H. left. split; [exact H | reflexivity].
Qed.

Lemma in_shared_strings_tip s top_paths :
  In shared_strings_tip (suggest_actions s top_paths) <-> shared_strings_fires s = true.
Proof.
  rewrite in_suggest_actions. split.
  - intros [[_ H] | [[H _] | [[_ H] | [(r & rest & _ & H) | [_ H]]]]];
      try discriminate H; exact H.
  - intros H. right. left. split; [exact H | reflexivity].
Qed.

Lemma in_worksheets_tip s top_paths :
  In worksheets_tip (suggest_actions s top_paths) <-> worksheets_fires s = true.
Proof.
  rewrite in_suggest_actions. split.
  - intros [[_ H] | [[_ H] | [[H _] | [(r & rest & _ & H) | [_ H]]]]];
      try discriminate H; exact H.
  - intros H. right. right. left. split; [exact H | reflexivity].
Qed.

Lemma media_fires_iff s :
  media_fires s = true <->
  0 < media_count s /\ 10485760 < media_uncompressed_total s.
Proof.
  unfold media_fires, MiB. rewrite andb_true_iff, !Z.gtb_ltb, !Z.ltb_lt. lia.
Qed.

Lemma shared_strings_fires_iff s :
  shared_strings_fires s = true <->
  exists ss, sharedStrings_uncompressed s = Some ss /\ 10485760 < ss.
Proof.
  unfold shared_strings_fires, MiB.
  destruct (sharedStrings_uncompressed s) as [ss |].
  - rewrite andb_true_iff, negb_true_iff, Z.eqb_neq, Z.gtb_ltb, Z.ltb_lt. split.
    + intros [_ H]. exists ss. split; [reflexivity | lia].
    + intros (ss' & [= <-] & H). lia.
  - split; [discriminate | intros (ss & H & _); discriminate H].
Qed.

Lemma worksheets_fires_iff s :
  worksheets_fires s = true <-> 20971520 < worksheets_uncompressed_total s.
Proof.
  unfold worksheets_fires, MiB. rewrite Z.gtb_ltb, Z.ltb_lt. lia.
Qed.

(** X9: each threshold suggestion is in the output exactly when its rule
    holds of the summary, whatever [top_paths] is: the image suggestion when
    there is a media member and the media total exceeds 10 MiB, the
    shared-strings one when the part is present and exceeds 10 MiB, the
    worksheets one when the worksheets total exceeds 20 MiB; a total equal to
    its threshold triggers nothing. *)
Theorem threshold_rules_fire_exactly s top_paths :
  (In media_tip (suggest_actions s top_paths) <->
   0 < media_count s /\ 10485760 < media_uncompressed_total s) /\
  (In shared_strings_tip (suggest_actions s top_paths) <->
   exists ss, sharedStrings_uncompressed s = Some ss /\ 10485760 < ss) /\
  (In worksheets_tip (suggest_actions s top_paths) <->
   20971520 < worksheets_uncompressed_total s).
Proof.
  rewrite in_media_tip, in_shared_strings_tip, in_worksheets_tip.
  rewrite media_fires_iff, shared_strings_fires_iff, worksheets_fires_iff.
  repeat split; tauto.
Qed.

(** X19: the suggestions come in a fixed order, each at most once: image,
    shared strings, worksheets, then the largest item, those whose rule does
    not hold left out. *)
Theorem suggestions_in_fixed_order s r rest :
  suggest_actions s (r :: rest) =
  map fst
    (filter snd
       [ (media_tip, media_fires s);
         (shared_strings_tip, shared_strings_fires s);
         (worksheets_tip, worksheets_fires s);
         (largest_tip (path r), true) ]).
Proof.
  rewrite suggest_actions_cons. unfold threshold_tips.
  destruct (media_fires s), (shared_strings_fires s), (worksheets_fires s);
    reflexivity.
Qed.

(** Only the first of the rows matters to the advisor. *)
Lemma suggest_actions_head s r rest rest' :
  suggest_actions s (r :: rest) = suggest_actions s (r :: rest').
Proof.
  rewrite !suggest_actions_cons. reflexivity.
Qed.

End AdvisorRules.

Section ReportFacts.

Import Advisor Report.

Lemma slice_to_cons {A} n (r : A) rest :
  1 <= n -> exists rest', slice_to n (r :: rest) = r :: rest'.
Proof.
  intros H. unfold slice_to.
  destruct (Z.leb_spec 0 n) as [_ | Hneg]; [| lia].
  destruct (Z.to_nat n) as [| k] eqn:E; [lia |].
  simpl. eexists. reflexivity.
Qed.

Lemma slice_to_nil {A} n : slice_to n (@nil A) = [].
Proof.
  unfold slice_to. destruct (0 <=? n); simpl.
  - apply firstn_nil.
  - reflexivity.
Qed.

(** X10: for [--top n] with [n] at least 1, the suggestions [main] prints
    are those it writes to the text file from the first 25 rows. *)
Theorem console_and_txt_tips_agree top summary rows :
  1 <= top ->
  console_tips top summary rows = txt_tips summary rows.
Proof.
  intros H. unfold console_tips, txt_tips.
  destruct rows as [| r rest].
  - rewrite !slice_to_nil. reflexivity.
  - destruct (slice_to_cons top r rest H) as [l1 ->].
    destruct (slice_to_cons 25 r rest ltac:(lia)) as [l2 ->].
    apply suggest_actions_head.
Qed.

Lemma console_and_txt_tips_agree_witness :
  1 <= 2 /\
  console_tips 2 Examples.scenario_summary Examples.scenario_rows =
  txt_tips Examples.scenario_summary Examples.scenario_rows.
Proof.
  split; [lia |].
  apply (console_and_txt_tips_agree 2). lia.
Defined.

End ReportFacts.

(** ** The scanner and the advisor together *)

Section PipelineFacts.

Import Advisor Scanner Aggregates Report.

Lemma total_file_size_filter_pos f infos :
  0 < total_file_size (filter f infos) -> (0 < List.length (filter f infos))%nat.
Proof.
  destruct (filter f infos); simpl; lia.
Qed.

(** X11: on the summary of a scan, the image suggestion appears exactly
    when the members under [xl/media/] total more than 10 MiB (the test on
    [media_count] adds nothing), and the worksheets suggestion exactly when
    the members under [xl/worksheets/] total more than 20 MiB. *)
Theorem threshold_tips_of_scan fs p zf rows summary top_paths :
  fs p = Archive zf ->
  scan_xlsx fs p = inr (rows, summary) ->
  (In media_tip (suggest_actions summary top_paths) <->
   10485760 < total_file_size (filter is_media (infolist zf))) /\
  (In worksheets_tip (suggest_actions summary top_paths) <->
   20971520 < total_file_size (filter is_worksheet (infolist zf))).
Proof.
  intros Hfs H.
  destruct (scan_archive_inr _ _ _ _ _ Hfs H) as (st & overall & Hloop & _ & _ & ->).
  apply scan_loop_aggregates in Hloop. destruct Hloop as [_ _ Hmc Hmt Hw _].
  rewrite in_media_tip, in_worksheets_tip, media_fires_iff, worksheets_fires_iff.
  simpl. rewrite Hmc, Hmt, Hw. split; [| tauto].
  split; [tauto |]. intros Hbig. split; [| exact Hbig].
  assert (Hpos : 0 < total_file_size (filter is_media (infolist zf))) by lia.
  apply total_file_size_filter_pos in Hpos. lia.
Qed.


Lemma threshold_tips_of_scan_witness :
  scan_xlsx Examples.disk "book.xlsx" =
    inr (Examples.scenario_rows, Examples.scenario_summary) /\
  (In media_tip (suggest_actions Examples.scenario_summary Examples.scenario_rows) <->
   10485760 < total_file_size (filter is_media (infolist Examples.scenario))).
Proof.
  assert (Hscan : scan_xlsx Examples.disk "book.xlsx" =
                  inr (Examples.scenario_rows, Examples.scenario_summary))
    by (vm_compute; reflexivity).
  split; [exact Hscan |].
  exact (proj1 (threshold_tips_of_scan Examples.disk "book.xlsx" Examples.scenario
                  _ _ Examples.scenario_rows eq_refl Hscan)).
Defined.






End PipelineFacts.

(** ** The notebook variant *)

Section InlineFacts.

Import Scanner Inline.

Lemma inline_step_of_scan_step st info st' :
  scan_step st info = inr st' ->
  inline_step (inline_of st) info = inr (inline_of st').
Proof.
  unfold scan_step, inline_step.
  destruct (savings_ratio (compress_size info) (file_size info)) as [e | ratio];
    simpl; [discriminate |].
  intros [= <-]. reflexivity.
Qed.

(** The notebook loop does what the scanner's loop does to the rows and
    the two totals. *)
Lemma inline_loop_of_scan_loop infos :
  forall st st',
    scan_loop st infos = inr st' ->
    inline_loop (inline_of st) infos = inr (inline_of st').
Proof.
  induction infos as [| info rest IH]; intros st st'; simpl.
  - intros [= <-]. reflexivity.
  - destruct (scan_step st info) as [e | st1] eqn:E; simpl; [discriminate |].
    intros Hloop. rewrite (inline_step_of_scan_step _ _ _ E). simpl.
    apply IH, Hloop.
Qed.

(** X14: for a path that refers to no existing file, where [scan_xlsx]
    raises [FileNotFoundError], the notebook variant prints the line
    "Plik nie istnieje: <path>" and returns [(None, None)]; it raises only
    what printing that line raises, and shows nothing. *)
Theorem inline_missing_path_returns_none HAVE_PANDAS print display fs p :
  os_path_exists fs p = false ->
  scan_xlsx fs p = inl (FileNotFoundError p) /\
  (print ("Plik nie istnieje: " ++ p)%string = inr tt ->
   analyze_xlsx_inline HAVE_PANDAS print display fs p = inr None) /\
  (forall e,
     print ("Plik nie istnieje: " ++ p)%string = inl e ->
     analyze_xlsx_inline HAVE_PANDAS print display fs p = inl e).
Proof.
  intros H. unfold analyze_xlsx_inline, scan_xlsx, missing_message.
  rewrite H. cbn [negb].
  split; [reflexivity |]. split.
  - intros Hprint. rewrite Hprint. reflexivity.
  - intros e Hprint. rewrite Hprint. reflexivity.
Qed.

Lemma inline_missing_path_returns_none_witness :
  os_path_exists Examples.disk "missing.xlsx" = false /\
  analyze_xlsx_inline true (fun _ => ret tt) (fun _ => raise BadZipFile)
    Examples.disk "missing.xlsx" = inr None /\
  analyze_xlsx_inline true (fun _ => raise OverflowError) (fun _ => raise BadZipFile)
    Examples.disk "missing.xlsx" = inl OverflowError.
Proof.
  split; [reflexivity |].
  split.
  - exact (proj1 (proj2 (inline_missing_path_returns_none true (fun _ => ret tt)
                           (fun _ => raise BadZipFile)
                           Examples.disk "missing.xlsx" eq_refl)) eq_refl).
  - exact (proj2 (proj2 (inline_missing_path_returns_none true
                           (fun _ => raise OverflowError)
                           (fun _ => raise BadZipFile)
                           Examples.disk "missing.xlsx" eq_refl))
             OverflowError eq_refl).
Defined.

(** X15: whenever [scan_xlsx] returns, the notebook variant returns the
    same rows, in the same order, and a summary with the same two totals and
    the same overall savings, provided pandas is absent or showing the rows
    does not raise. *)
Theorem inline_agrees_with_scan HAVE_PANDAS print display fs p rows summary :
  scan_xlsx fs p = inr (rows, summary) ->
  HAVE_PANDAS = false \/ display rows = inr tt ->
  analyze_xlsx_inline HAVE_PANDAS print display fs p =
  inr (Some (rows, inline_summary_of summary)).
Proof.
  intros H Hshow. apply scan_xlsx_inr in H.
  destruct H as (zf & st & overall & Hfs & Hloop & Hoverall & -> & ->).
  unfold analyze_xlsx_inline, os_path_exists, open_zip. rewrite Hfs.
  cbn [negb bind ret].
  change inline_init with (inline_of init_state).
  rewrite (inline_loop_of_scan_loop _ _ _ Hloop). simpl.
  rewrite Hoverall. simpl.
  destruct Hshow as [-> | Hshow]; [reflexivity |].
  destruct HAVE_PANDAS; [rewrite Hshow |]; reflexivity.
Qed.

Lemma inline_agrees_with_scan_witness :
  scan_xlsx Examples.disk "book.xlsx" =
    inr (Examples.scenario_rows, Examples.scenario_summary) /\
  analyze_xlsx_inline false (fun _ => raise BadZipFile) (fun _ => raise BadZipFile)
    Examples.disk "book.xlsx" =
    inr (Some (Examples.scenario_rows, inline_summary_of Examples.scenario_summary)).
Proof.
  assert (Hscan : scan_xlsx Examples.disk "book.xlsx" =
                  inr (Examples.scenario_rows, Examples.scenario_summary))
    by (vm_compute; reflexivity).
  split; [exact Hscan |].
  apply (inline_agrees_with_scan false _ _ Examples.disk "book.xlsx" _ _ Hscan).
  left. reflexivity.
Defined.

End InlineFacts.

(** ** Sizes for people *)

Section HumanBytesFacts.

Import HumanBytes.

Lemma iter_xO_pow m d :
  Zpos (Pos.iter xO m d) = Zpos m * 2 ^ Zpos d.
Proof.
  induction d as [| d IH] using Pos.peano_ind.
  - simpl. lia.
  - rewrite Pos.iter_succ, Pos2Z.inj_xO, IH, Pos2Z.inj_succ, Z.pow_succ_r by lia. lia.
Qed.

(** [float(n)] raises nothing below [2 ^ 1000]. *)
Lemma float_of_int_total n :
  0 <= n < 2 ^ 1000 -> exists f, float_of_int n = inr f.
Proof.
  intros [H0 Hn]. unfold float_of_int.
  destruct n as [| m | m]; [eexists; reflexivity | | lia].
  cbn [binary_normalize]. unfold binary_round.
  assert (Hd : 0 <= Zdigits2 (Zpos m) <= 1000) by (apply Zdigits2_le; lia).
  cbn [Zdigits2] in Hd.
  set (e := fexp prec emax (Zpos (digits2_pos m) + 0)).
  assert (Haligned : let '(mz, ez) := shl_align m 0 e in
                     ez <= 0 /\ Zdigits2 (Zpos mz) + ez <= 1000).
  { unfold shl_align. destruct (e - 0) as [| d | d] eqn:E.
    - cbn [Zdigits2]. lia.
    - cbn [Zdigits2]. lia.
    - split; [lia |].
      assert (Hlt : 0 <= Zpos (Pos.iter xO m d) < 2 ^ (1000 + Zpos d)).
      { rewrite iter_xO_pow, Z.pow_add_r by lia.
        assert (0 < 2 ^ Zpos d) by (apply Z.pow_pos_nonneg; lia). nia. }
      pose proof (Zdigits2_le _ _ Hlt ltac:(lia)). lia. }
  destruct (shl_align m 0 e) as [mz ez]. destruct Haligned as [He Hdz].
  pose proof (binary_round_aux_finite false (Zpos mz) ez loc_Exact ltac:(lia) He Hdz) as Hfin.
  destruct (binary_round_aux prec emax false (Zpos mz) ez loc_Exact) as [s | s | | s m' e'];
    try (eexists; reflexivity).
  exfalso. exact (Hfin s eq_refl).
Qed.

(** X16: [human_bytes] raises nothing on a size below [2 ^ 1000], so on
    every size an archive index can hold. *)
Theorem human_bytes_returns n :
  0 <= n < 2 ^ 1000 -> exists s, human_bytes (Some n) = inr s.
Proof.
  intros H. unfold human_bytes.
  destruct (float_of_int_total n H) as [f ->]. cbn [bind].
  destruct (scale f "B" ["KB"; "MB"; "GB"; "TB"]) as [f' unit].
  eexists. reflexivity.
Qed.

Lemma human_bytes_returns_witness :
  0 <= 11534336 < 2 ^ 1000 /\ exists s, human_bytes (Some 11534336) = inr s.
Proof.
  assert (H : 0 <= 11534336 < 2 ^ 1000) by (split; [lia | reflexivity]).
  split; [exact H |].
  exact (human_bytes_returns 11534336 H).
Defined.



(** Every size below 1024 checked. *)
Lemma small_sizes_checked :
  forallb
    (fun k =>
       match human_bytes (Some (Z.of_nat k)) with
       | inr s => String.eqb s (decimal (Z.of_nat k) ++ ".00 B")
       | inl _ => false
       end)
    (seq 0 1024) = true.
Proof. vm_compute. reflexivity. Qed.

(** X18: a size below 1024 is shown in bytes, as it is, with two zero
    decimals. *)
Theorem human_bytes_small n :
  0 <= n < 1024 ->
  human_bytes (Some n) = inr (decimal n ++ ".00 B")%string.
Proof.
  intros H.
  pose proof small_sizes_checked as Hall.
  rewrite forallb_forall in Hall.
  specialize (Hall (Z.to_nat n)).
  rewrite Z2Nat.id in Hall by lia.
  assert (Hin : In (Z.to_nat n) (seq 0 1024)) by (apply in_seq; lia).
  specialize (Hall Hin).
  destruct (human_bytes (Some n)) as [e | s]; [discriminate Hall |].
  apply String.eqb_eq in Hall. rewrite Hall. reflexivity.
Qed.

Lemma human_bytes_small_witness :
  0 <= 512 < 1024 /\ human_bytes (Some 512) = inr "512.00 B".
Proof.
  split; [lia |].
  apply (human_bytes_small 512). lia.
Defined.

End HumanBytesFacts.
